(** * OpenAIService (src/services/openai.ts): history, gating and listeners

    A shallow embedding of the prediction service.  The service object is a
    record; every method is a computation in a small state / trace /
    exception monad.  The trace records what the method does to the outside
    world: console output (by the label of the line), the request sent to
    the completion endpoint and the calls made to the registered listeners.
    A listener is known by its reference; what it does when called, return
    or throw, is given to each method that notifies as [callbacks], so it
    may differ from one round of notifications to the next.  A listener
    that calls back into the service is outside this model.

    [predictMessage] is an async function with one [await].  It is embedded
    as the part that runs up to the [await] ([predictMessage_start]) and the
    part that runs once the endpoint has answered ([predictMessage_resume]);
    [predictMessage] runs the two back to back against an endpoint given as
    a function, and [step] lets other calls happen in between. *)

From stdpp Require Import gmap strings list fin_maps.

Open Scope string_scope.
Open Scope list_scope.
Open Scope nat_scope.

(** ** Data *)

Inductive Role := user | assistant | system.

Record Message := mkMessage {
  role : Role;
  content : string;
  username : option string   (* [None] is an absent (undefined) username *)
}.

(** A callback is known by its reference only. *)
Definition PredictionListener := nat.

(** One entry of [formattedMessages], and of the request's [messages]. *)
Record Turn := mkTurn {
  turn_role : Role;
  turn_content : string
}.

(** The argument of [openai.chat.completions.create].  The three decimal
    parameters 0.7, 0.6 and 0.5 are kept in tenths. *)
Record Request := mkRequest {
  model : string;
  messages : list Turn;
  max_tokens : nat;
  temperature_tenths : nat;
  presence_penalty_tenths : nat;
  frequency_penalty_tenths : nat
}.

(** What the endpoint answers: [choices[0]] may be missing, a choice may
    have no [message], and a message's [content] may be null. *)
Record ChatCompletionMessage := mkCompletionMessage {
  completion_content : option string
}.

Record Choice := mkChoice {
  message : option ChatCompletionMessage
}.

Record ChatCompletion := mkCompletion {
  choices : list Choice
}.

(** The value a rejected promise, or a [throw], carries. *)
Definition Error := string.

(** What the listeners do during one method call: called with a chat id
    and a prediction, a listener returns ([None]) or throws. *)
Definition Callbacks : Type := PredictionListener → string → string → option Error.

(** [getGlobal()]: only [settings.byKey.isAiEnabled] is read. *)
Record Global := mkGlobal {
  isAiEnabled : bool
}.

(** The private fields of the service ([openai], the client, is the
    endpoint and stays outside). *)
Record OpenAIService := mkService {
  messageHistory : gmap string (list Message);
  currentChatId : option string;
  currentUserId : option string;
  predictionListeners : list PredictionListener   (* a Set, in insertion order *)
}.

Definition initial : OpenAIService :=
  {| messageHistory := ∅;
     currentChatId := None;
     currentUserId := None;
     predictionListeners := [] |}.

Inductive Event :=
| ConsoleLog (label : string)
| ConsoleError (label : string) (e : Error)
| CompletionsCreate (req : Request)
| ListenerCall (l : PredictionListener) (chatId prediction : string).

(** ** JavaScript operators the code relies on *)

(** [!!x] for [x : string | null]: null and the empty string are falsy. *)
Definition truthy (x : option string) : bool :=
  match x with
  | Some s => negb (String.eqb s "")
  | None => false
  end.

(** [a === b] for [a : string] and [b : string | null]. *)
Definition strict_eq (a : string) (b : option string) : bool :=
  match b with
  | Some b' => String.eqb a b'
  | None => false
  end.

(** [a === b] for [a : string | undefined] and [b : string | null]:
    undefined and null are different values. *)
Definition strict_eq_opt (a b : option string) : bool :=
  match a, b with
  | Some a', Some b' => String.eqb a' b'
  | _, _ => false
  end.

(** [x || ''] for [x : string | null | undefined]. *)
Definition or_empty (x : option string) : string :=
  if truthy x then default "" x else "".

(** [l.slice(-n)]: the last [n] entries, all of [l] when it is shorter. *)
Definition slice_last {A : Type} (n : nat) (l : list A) : list A :=
  drop (length l - n) l.

(** [Set.prototype.add] and [Set.prototype.delete], on a Set kept as the
    list of its members in insertion order. *)
Definition set_add (x : PredictionListener) (s : list PredictionListener)
  : list PredictionListener :=
  if bool_decide (x ∈ s) then s else s ++ [x].

Definition set_delete (x : PredictionListener) (s : list PredictionListener)
  : list PredictionListener :=
  filter (λ y, y ≠ x) s.

(** ** The monad: state, trace and exceptions *)

Inductive Outcome (A : Type) :=
| Returned (a : A)
| Thrown (e : Error).
Arguments Returned {A} a.
Arguments Thrown {A} e.

Definition M (A : Type) : Type :=
  OpenAIService → Outcome A * OpenAIService * list Event.

Definition ret {A : Type} (a : A) : M A := λ s, (Returned a, s, []).

Definition bind {A B : Type} (c : M A) (f : A → M B) : M B :=
  λ s, match c s with
       | (Returned a, s1, t1) =>
           match f a s1 with
           | (o, s2, t2) => (o, s2, t1 ++ t2)
           end
       | (Thrown e, s1, t1) => (Thrown e, s1, t1)
       end.

Definition get : M OpenAIService := λ s, (Returned s, s, []).
Definition put (s' : OpenAIService) : M unit := λ _, (Returned (), s', []).
Definition emit (e : Event) : M unit := λ s, (Returned (), s, [e]).
Definition throw {A : Type} (e : Error) : M A := λ s, (Thrown e, s, []).

(** [try { c } catch (error) { h error }] *)
Definition try_catch {A : Type} (c : M A) (h : Error → M A) : M A :=
  λ s, match c s with
       | (Returned a, s1, t1) => (Returned a, s1, t1)
       | (Thrown e, s1, t1) =>
           match h e s1 with
           | (o, s2, t2) => (o, s2, t1 ++ t2)
           end
       end.

Notation "'let*' x ':=' c1 'in' c2" := (bind c1 (λ x, c2))
  (at level 10, x name, c1 at level 100, c2 at level 200).
Notation "c1 >> c2" := (bind c1 (λ _, c2))
  (at level 100, c2 at level 200, right associativity).

Definition console_log (label : string) : M unit := emit (ConsoleLog label).
Definition console_error (label : string) (e : Error) : M unit :=
  emit (ConsoleError label e).

(** [xs.forEach(f)] *)
Fixpoint forEach {A : Type} (xs : list A) (f : A → M unit) : M unit :=
  match xs with
  | [] => ret ()
  | x :: xs' => f x >> forEach xs' f
  end.

(** [xs.map(f)] for a callback with effects. *)
Fixpoint mapM {A B : Type} (f : A → M B) (xs : list A) : M (list B) :=
  match xs with
  | [] => ret []
  | x :: xs' => let* y := f x in let* ys := mapM f xs' in ret (y :: ys)
  end.

Definition result {A : Type} (r : Outcome A * OpenAIService * list Event) : Outcome A :=
  r.1.1.
Definition state_after {A : Type} (r : Outcome A * OpenAIService * list Event)
  : OpenAIService := r.1.2.
Definition trace {A : Type} (r : Outcome A * OpenAIService * list Event) : list Event :=
  r.2.

(** ** The methods of the service *)

Definition addPredictionListener (listener : PredictionListener) : M unit :=
  let* s := get in
  put {| messageHistory := messageHistory s;
         currentChatId := currentChatId s;
         currentUserId := currentUserId s;
         predictionListeners := set_add listener (predictionListeners s) |}.

Definition removePredictionListener (listener : PredictionListener) : M unit :=
  let* s := get in
  put {| messageHistory := messageHistory s;
         currentChatId := currentChatId s;
         currentUserId := currentUserId s;
         predictionListeners := set_delete listener (predictionListeners s) |}.

(** [listener(chatId, prediction)]: the call, then what the callback does. *)
Definition call_listener (callbacks : Callbacks) (chatId prediction : string)
    (listener : PredictionListener) : M unit :=
  emit (ListenerCall listener chatId prediction) >>
  match callbacks listener chatId prediction with
  | Some error => throw error
  | None => ret ()
  end.

Definition notifyPredictionListeners (callbacks : Callbacks)
    (chatId prediction : string) : M unit :=
  let* s := get in
  forEach (predictionListeners s) (call_listener callbacks chatId prediction).

Definition setCurrentUser (userId : string) : M unit :=
  let* s := get in
  put {| messageHistory := messageHistory s;
         currentChatId := currentChatId s;
         currentUserId := Some userId;
         predictionListeners := predictionListeners s |}.

Definition setHistory (h : gmap string (list Message)) : M unit :=
  let* s := get in
  put {| messageHistory := h;
         currentChatId := currentChatId s;
         currentUserId := currentUserId s;
         predictionListeners := predictionListeners s |}.

Definition setCurrentChat (chatId : option string) : M unit :=
  let* s := get in
  put {| messageHistory := messageHistory s;
         currentChatId := chatId;
         currentUserId := currentUserId s;
         predictionListeners := predictionListeners s |} >>
  if negb (truthy chatId) then setHistory ∅ else ret ().

Definition systemPrompt : string :=
  "You are participating in a Telegram chat conversation as the current user. Your task is to predict the next message that the current user would send, based on their speaking style and the conversation context. Keep responses natural and in character. Pay attention to the conversation flow. Respond in the same language as the conversation. Do not include any username prefixes in your response.".

(** The callback of [recentMessages.map]. *)
Definition formatMessage (msg : Message) : M Turn :=
  let* s := get in
  let isCurrentUser := strict_eq_opt (username msg) (currentUserId s) in
  console_log "Processing message:" >>
  ret {| turn_role := if isCurrentUser then assistant else user;
         turn_content := content msg |}.

Definition completionRequest (formattedMessages : list Turn) : Request :=
  {| model := "gpt-4";
     messages := {| turn_role := system; turn_content := systemPrompt |}
                   :: formattedMessages;
     max_tokens := 100;
     temperature_tenths := 7;
     presence_penalty_tenths := 6;
     frequency_penalty_tenths := 5 |}.

(** [completion.choices[0]?.message?.content || ''] *)
Definition firstChoiceText (completion : ChatCompletion) : string :=
  or_empty (match choices completion with
            | [] => None
            | c :: _ => match message c with
                        | None => None
                        | Some m => completion_content m
                        end
            end).

(** Where an async call stands when it hands control back: settled with a
    value, or waiting for the endpoint to answer the request it sent. *)
Inductive Async (A : Type) :=
| Resolved (a : A)
| Awaiting (req : Request).
Arguments Resolved {A} a.
Arguments Awaiting {A} req.

(** The [catch] block of [predictMessage]. *)
Definition predictMessage_catch (error : Error) : M string :=
  console_error "Error predicting message:" error >>
  ret "".

(** [predictMessage], lines 57 to 114: everything before the [await]. *)
Definition predictMessage_start (global : Global) (chatId : string)
    (msgs : list Message) : M (Async string) :=
  let* s := get in
  if negb (strict_eq chatId (currentChatId s)) || negb (truthy (currentUserId s)) then
    console_log "Prediction skipped: wrong chat or no user" >>
    ret (Resolved "")
  else if Nat.eqb (length msgs) 0 then
    console_log "Prediction skipped: no messages" >>
    ret (Resolved "")
  else if negb (isAiEnabled global) then
    console_log "Prediction skipped: AI is disabled" >>
    ret (Resolved "")
  else
    try_catch
      (let recentMessages := slice_last 20 msgs in
       setHistory (<[chatId := recentMessages]> (messageHistory s)) >>
       console_log "Processing messages:" >>
       let* formattedMessages := mapM formatMessage recentMessages in
       if Nat.eqb (length formattedMessages) 0 then
         console_log "Prediction skipped: no formatted messages" >>
         ret (Resolved "")
       else
         console_log "🤖 Sending to OpenAI:" >>
         console_log "🤖 Full OpenAI Context:" >>
         emit (CompletionsCreate (completionRequest formattedMessages)) >>
         ret (Awaiting (completionRequest formattedMessages)))
      (λ error, let* r := predictMessage_catch error in ret (Resolved r)).

(** [predictMessage], lines 114 to 139: the [await] settles, with the
    completion or with an error thrown inside the [try]; a listener that
    throws does so inside the [try] as well. *)
Definition predictMessage_resume (callbacks : Callbacks) (chatId : string)
    (answer : Error + ChatCompletion) : M string :=
  try_catch
    (let* completion := match answer with
                        | inl error => throw error
                        | inr completion => ret completion
                        end in
     let prediction := firstChoiceText completion in
     console_log "Received prediction:" >>
     notifyPredictionListeners callbacks chatId prediction >>
     ret prediction)
    predictMessage_catch.

(** [predictMessage] with nothing running during the [await]: [create] is
    the endpoint. *)
Definition predictMessage (create : Request → Error + ChatCompletion)
    (callbacks : Callbacks)
    (global : Global) (chatId : string) (msgs : list Message) : M string :=
  let* a := predictMessage_start global chatId msgs in
  match a with
  | Resolved r => ret r
  | Awaiting req => predictMessage_resume callbacks chatId (create req)
  end.

Definition updateHistory (chatId : string) (newMessage : Message) : M unit :=
  let* s := get in
  if negb (strict_eq chatId (currentChatId s)) then ret ()
  else
    let history := default [] (messageHistory s !! chatId) in
    let history := history ++ [newMessage] in
    let history := if Nat.ltb 20 (length history) then tail history else history in
    setHistory (<[chatId := history]> (messageHistory s)).

Definition clearHistory (chatId : string) : M unit :=
  let* s := get in
  setHistory (delete chatId (messageHistory s)).

(** No [try] here: what a listener throws reaches the caller. *)
Definition clearPrediction (callbacks : Callbacks) : M unit :=
  let* s := get in
  match currentChatId s with
  | Some chatId =>
      if truthy (Some chatId) then
        setHistory (delete chatId (messageHistory s)) >>
        notifyPredictionListeners callbacks chatId "" >>
        console_log "Prediction cleared for chat:"
      else ret ()
  | None => ret ()   (* null is falsy *)
  end.

(** [regeneratePrediction] up to the point where [predictMessage] awaits. *)
Definition regeneratePrediction_start (global : Global) (chatId : string)
    (msgs : list Message) : M (Async string) :=
  if negb (isAiEnabled global) then
    console_log "Regeneration skipped: AI is disabled" >>
    ret (Resolved "")
  else predictMessage_start global chatId msgs.

Definition regeneratePrediction (create : Request → Error + ChatCompletion)
    (callbacks : Callbacks)
    (global : Global) (chatId : string) (msgs : list Message) : M string :=
  if negb (isAiEnabled global) then
    console_log "Regeneration skipped: AI is disabled" >>
    ret ""
  else predictMessage create callbacks global chatId msgs.

(** ** Sequences of calls

    The host calls the methods one after the other on the event loop.  A
    [predictMessage] call that reaches its [await] stays pending, other calls
    run, and the endpoint's answer resumes it later; all its continuation
    keeps of the call is [chatId].  A call that notifies comes with what the
    listeners do during it; an exception that reaches the host ends that
    call and the host goes on. *)

Record World := mkWorld {
  service : OpenAIService;
  pending : list string   (* the suspended predictMessage calls *)
}.

Definition world0 : World := {| service := initial; pending := [] |}.

Inductive Call :=
| CallAddPredictionListener (listener : PredictionListener)
| CallRemovePredictionListener (listener : PredictionListener)
| CallSetCurrentUser (userId : string)
| CallSetCurrentChat (chatId : option string)
| CallPredictMessage (global : Global) (chatId : string) (msgs : list Message)
| CallRegeneratePrediction (global : Global) (chatId : string) (msgs : list Message)
| EndpointAnswers (i : nat) (answer : Error + ChatCompletion) (callbacks : Callbacks)
| CallUpdateHistory (chatId : string) (newMessage : Message)
| CallClearHistory (chatId : string)
| CallClearPrediction (callbacks : Callbacks).

Definition run_sync (c : M unit) (w : World) : World * list Event :=
  let r := c (service w) in
  ({| service := state_after r; pending := pending w |}, trace r).

Definition run_async (c : M (Async string)) (chatId : string) (w : World)
  : World * list Event :=
  let r := c (service w) in
  ({| service := state_after r;
      pending := match result r with
                 | Returned (Awaiting _) => pending w ++ [chatId]
                 | _ => pending w
                 end |}, trace r).

Definition step (c : Call) (w : World) : World * list Event :=
  match c with
  | CallAddPredictionListener l => run_sync (addPredictionListener l) w
  | CallRemovePredictionListener l => run_sync (removePredictionListener l) w
  | CallSetCurrentUser u => run_sync (setCurrentUser u) w
  | CallSetCurrentChat chatId => run_sync (setCurrentChat chatId) w
  | CallPredictMessage g chatId msgs =>
      run_async (predictMessage_start g chatId msgs) chatId w
  | CallRegeneratePrediction g chatId msgs =>
      run_async (regeneratePrediction_start g chatId msgs) chatId w
  | EndpointAnswers i answer callbacks =>
      match pending w !! i with
      | Some chatId =>
          let r := predictMessage_resume callbacks chatId answer (service w) in
          ({| service := state_after r; pending := delete i (pending w) |}, trace r)
      | None => (w, [])
      end
  | CallUpdateHistory chatId m => run_sync (updateHistory chatId m) w
  | CallClearHistory chatId => run_sync (clearHistory chatId) w
  | CallClearPrediction callbacks => run_sync (clearPrediction callbacks) w
  end.

Fixpoint run (cs : list Call) (w : World) : World * list Event :=
  match cs with
  | [] => (w, [])
  | c :: cs' =>
      let '(w1, t1) := step c w in
      let '(w2, t2) := run cs' w1 in
      (w2, t1 ++ t2)
  end.

(** The states of the service that some sequence of calls leads to. *)
Definition reachable (s : OpenAIService) : Prop :=
  ∃ cs, s = service (run cs world0).1.

(** ** Vocabulary of the statements *)

(** The service with its history map replaced. *)
Definition with_history (s : OpenAIService) (h : gmap string (list Message))
  : OpenAIService :=
  {| messageHistory := h;
     currentChatId := currentChatId s;
     currentUserId := currentUserId s;
     predictionListeners := predictionListeners s |}.

(** What [formatMessage] returns, for the user id it reads. *)
Definition formatted (userId : option string) (msg : Message) : Turn :=
  {| turn_role := if strict_eq_opt (username msg) userId then assistant else user;
     turn_content := content msg |}.

(** The four tests at the top of [predictMessage], taken together. *)
Definition gate (global : Global) (s : OpenAIService) (chatId : string)
    (msgs : list Message) : bool :=
  strict_eq chatId (currentChatId s) && truthy (currentUserId s)
  && negb (Nat.eqb (length msgs) 0) && isAiEnabled global.

(** The events that are console output. *)
Definition is_console (e : Event) : Prop :=
  match e with
  | ConsoleLog _ | ConsoleError _ _ => True
  | _ => False
  end.

(** The trace of [start] when the gate is open, up to the request. *)
Definition start_trace (recentMessages : list Message) (req : Request) : list Event :=
  [ConsoleLog "Processing messages:"]
  ++ ((λ _, ConsoleLog "Processing message:") <$> recentMessages)
  ++ [ConsoleLog "🤖 Sending to OpenAI:"; ConsoleLog "🤖 Full OpenAI Context:";
      CompletionsCreate req].

(** The cap on a stored history. *)
Definition capped (h : gmap string (list Message)) : Prop :=
  ∀ chatId history, h !! chatId = Some history → length history ≤ 20.

(** The cap, and a listener Set without a repeated member. *)
Definition inv (s : OpenAIService) : Prop :=
  capped (messageHistory s) ∧ NoDup (predictionListeners s).

(** The arguments of the calls a trace makes to the listener [fn], in order. *)
Fixpoint calls_to (fn : PredictionListener) (t : list Event) : list (string * string) :=
  match t with
  | [] => []
  | ListenerCall l chatId prediction :: t' =>
      if Nat.eqb l fn then (chatId, prediction) :: calls_to fn t' else calls_to fn t'
  | _ :: t' => calls_to fn t'
  end.

(** All the listener calls of a trace: listener, chat id, prediction. *)
Fixpoint calls_to_any (t : list Event) : list (PredictionListener * string * string) :=
  match t with
  | [] => []
  | ListenerCall l chatId prediction :: t' => (l, chatId, prediction) :: calls_to_any t'
  | _ :: t' => calls_to_any t'
  end.

(** The listeners one round of notifications reaches: each in turn, up to
    and with the first that throws. *)
Fixpoint notified (callbacks : Callbacks) (chatId prediction : string)
    (ls : list PredictionListener) : list PredictionListener :=
  match ls with
  | [] => []
  | l :: ls' =>
      l :: match callbacks l chatId prediction with
           | Some _ => []
           | None => notified callbacks chatId prediction ls'
           end
  end.

(** What that round throws, if a listener does. *)
Fixpoint first_throw (callbacks : Callbacks) (chatId prediction : string)
    (ls : list PredictionListener) : option Error :=
  match ls with
  | [] => None
  | l :: ls' =>
      match callbacks l chatId prediction with
      | Some error => Some error
      | None => first_throw callbacks chatId prediction ls'
      end
  end.

(** ** Concrete runs, for the examples below *)

(** Listeners that all return. *)
Definition quiet : Callbacks := λ _ _ _, None.

(** Listener [bad] throws [error], the others return. *)
Definition throwing (bad : PredictionListener) (error : Error) : Callbacks :=
  λ l _ _, if l =? bad then Some error else None.

Definition hello : Message :=
  {| role := user; content := "hi"; username := Some "bob" |}.

Definition bye : Message :=
  {| role := user; content := "bye"; username := Some "alice" |}.

Definition aiOn : Global := {| isAiEnabled := true |}.
Definition aiOff : Global := {| isAiEnabled := false |}.

Definition says (text : string) : Request → Error + ChatCompletion :=
  λ _, inr {| choices := [{| message := Some {| completion_content := Some text |} |}] |}.

Definition fails (error : Error) : Request → Error + ChatCompletion :=
  λ _, inl error.

(** alice, one listener, chat A open with one message stored. *)
Definition in_chat_A : OpenAIService :=
  service (run [CallAddPredictionListener 7; CallSetCurrentUser "alice";
                CallSetCurrentChat (Some "A"); CallUpdateHistory "A" hello] world0).1.


(** Chat A filled to the cap by a prediction, then chat B opened. *)
Definition moved_to_B : OpenAIService :=
  service (run [CallSetCurrentUser "alice"; CallSetCurrentChat (Some "A");
                CallPredictMessage aiOn "A" (replicate 20 hello);
                CallSetCurrentChat (Some "B")] world0).1.


(** ** The singleton

    The constructor and [getInstance] (lines 20 to 32).  The static field
    [instance] is undefined until the first call; the object it then holds
    is the one every caller gets. *)

(** The client the constructor builds from the key. *)
Record OpenAI := mkOpenAI {
  apiKey : string;
  dangerouslyAllowBrowser : bool
}.

Record Instance := mkInstance {
  openai : OpenAI;
  fields : OpenAIService
}.

Definition constructor (key : string) : Instance :=
  {| openai := {| apiKey := key; dangerouslyAllowBrowser := true |};
     fields := initial |}.

(** [getInstance(apiKey)]: the object returned and the static field after. *)
Definition getInstance (key : string) (instance : option Instance)
  : Instance * option Instance :=
  match instance with
  | None => let created := constructor key in (created, Some created)
  | Some existing => (existing, Some existing)
  end.

(** What the host does: ask for the instance, or call a method on it. *)
Inductive HostCall :=
| GetInstance (key : string)
| Method (c : Call).

Record Process := mkProcess {
  instance : option Instance;   (* the static field *)
  suspended : list string       (* the predictMessage calls awaiting *)
}.

Definition process0 : Process := {| instance := None; suspended := [] |}.

Definition host_step (h : HostCall) (p : Process) : Process * list Event :=
  match h with
  | GetInstance key =>
      ({| instance := (getInstance key (instance p)).2; suspended := suspended p |}, [])
  | Method c =>
      match instance p with
      | Some i =>
          let '(w, t) := step c {| service := fields i; pending := suspended p |} in
          ({| instance := Some {| openai := openai i; fields := service w |};
              suspended := pending w |}, t)
      | None => (p, [])   (* nothing to call the method on *)
      end
  end.

Fixpoint host_run (hs : list HostCall) (p : Process) : Process * list Event :=
  match hs with
  | [] => (p, [])
  | h :: hs' =>
      let '(p1, t1) := host_step h p in
      let '(p2, t2) := host_run hs' p1 in
      (p2, t1 ++ t2)
  end.

(** The method calls of a host sequence. *)
Fixpoint methods (hs : list HostCall) : list Call :=
  match hs with
  | [] => []
  | GetInstance _ :: hs' => methods hs'
  | Method c :: hs' => c :: methods hs'
  end.

(** ** More vocabulary *)

(** The requests a trace sends to the endpoint, in order. *)
Fixpoint requests (t : list Event) : list Request :=
  match t with
  | [] => []
  | CompletionsCreate req :: t' => req :: requests t'
  | _ :: t' => requests t'
  end.

(** Calls that can replace the current user, the current chat, the
    listener Set. *)
Definition sets_user (c : Call) : Prop :=
  match c with CallSetCurrentUser _ => True | _ => False end.

Definition sets_chat (c : Call) : Prop :=
  match c with CallSetCurrentChat _ => True | _ => False end.

Definition edits_listeners (c : Call) : Prop :=
  match c with
  | CallAddPredictionListener _ | CallRemovePredictionListener _ => True
  | _ => False
  end.


(** ** Running the combinators *)

Lemma strict_eq_true a b : strict_eq a b = true ↔ b = Some a.
Proof.
  destruct b as [b|]; simpl; [|split; discriminate].
  rewrite String.eqb_eq. split; congruence.
Qed.

Lemma strict_eq_false a b : strict_eq a b = false ↔ b ≠ Some a.
Proof.
  rewrite <- strict_eq_true. destruct (strict_eq a b); split; congruence.
Qed.

Lemma truthy_Some x : truthy x = true ↔ ∃ s, x = Some s ∧ s ≠ "".
Proof.
  destruct x as [s|]; simpl.
  - rewrite negb_true_iff, String.eqb_neq. split; [eauto|].
    intros (s' & [= <-] & ?); done.
  - split; [discriminate|]. intros (? & [=] & _).
Qed.

Lemma length_slice_last {A} n (l : list A) : length (slice_last n l) ≤ n.
Proof. unfold slice_last. rewrite length_drop. lia. Qed.

Lemma slice_last_short {A} n (l : list A) : length l ≤ n → slice_last n l = l.
Proof.
  intros H. unfold slice_last. by replace (length l - n) with 0 by lia.
Qed.

Lemma slice_last_nil_inv {A} n (l : list A) : 0 < n → slice_last n l = [] → l = [].
Proof.
  intros Hn H. apply (f_equal length) in H. unfold slice_last in H.
  rewrite length_drop in H. simpl in H.
  destruct l; [done|]. simpl in H. lia.
Qed.

Lemma notified_elem_of callbacks chatId prediction ls l :
  l ∈ notified callbacks chatId prediction ls → l ∈ ls.
Proof.
  induction ls as [|x ls IH]; [done|]. simpl.
  intros [->|H]%elem_of_cons; [left|].
  destruct (callbacks x chatId prediction); [by apply elem_of_nil in H|].
  right. by apply IH.
Qed.



Lemma forEach_call_listener callbacks chatId prediction ls s :
  forEach ls (call_listener callbacks chatId prediction) s
  = (match first_throw callbacks chatId prediction ls with
     | Some error => Thrown error
     | None => Returned ()
     end, s,
     (λ l, ListenerCall l chatId prediction) <$> notified callbacks chatId prediction ls).
Proof.
  induction ls as [|l ls IH]; [done|].
  simpl. unfold bind at 1, call_listener at 1, bind at 1, emit. simpl.
  destruct (callbacks l chatId prediction) as [e|]; simpl; [done|].
  rewrite IH. done.
Qed.

Lemma notifyPredictionListeners_run callbacks chatId prediction s :
  notifyPredictionListeners callbacks chatId prediction s
  = (match first_throw callbacks chatId prediction (predictionListeners s) with
     | Some error => Thrown error
     | None => Returned ()
     end, s,
     (λ l, ListenerCall l chatId prediction)
       <$> notified callbacks chatId prediction (predictionListeners s)).
Proof.
  unfold notifyPredictionListeners, bind, get.
  rewrite forEach_call_listener. by destruct (first_throw _ _ _ _).
Qed.

Lemma mapM_formatMessage (xs : list Message) s :
  mapM formatMessage xs s
  = (Returned (formatted (currentUserId s) <$> xs), s,
     (λ _, ConsoleLog "Processing message:") <$> xs).
Proof.
  induction xs as [|x xs IH]; [done|].
  simpl. unfold bind at 1. simpl. unfold bind at 1. rewrite IH.
  unfold ret, formatted. simpl. by rewrite app_nil_r.
Qed.

Lemma setHistory_run h s : setHistory h s = (Returned (), with_history s h, []).
Proof. reflexivity. Qed.


(** ** [predictMessage] up to the [await] *)

Lemma gate_true global s chatId msgs :
  gate global s chatId msgs = true ↔
  currentChatId s = Some chatId ∧ truthy (currentUserId s) = true
  ∧ msgs ≠ [] ∧ isAiEnabled global = true.
Proof.
  unfold gate. rewrite !andb_true_iff, negb_true_iff, Nat.eqb_neq, strict_eq_true.
  destruct msgs; simpl; intuition (try congruence; try lia).
Qed.

Lemma gate_false global s chatId msgs :
  currentChatId s ≠ Some chatId ∨ currentUserId s = None
  ∨ msgs = [] ∨ isAiEnabled global = false →
  gate global s chatId msgs = false.
Proof.
  intros H. destruct (gate global s chatId msgs) eqn:G; [|done].
  apply gate_true in G as (Hc & Hu & Hm & Ha).
  destruct H as [H|[H|[H|H]]]; try congruence.
  rewrite H in Hu. discriminate.
Qed.

Lemma predictMessage_start_closed global chatId msgs s :
  gate global s chatId msgs = false →
  ∃ label,
    predictMessage_start global chatId msgs s
    = (Returned (Resolved ""), s, [ConsoleLog label]).
Proof.
  unfold gate, predictMessage_start, bind, get. simpl. intros G.
  destruct (strict_eq chatId (currentChatId s)); simpl; [|eauto].
  destruct (truthy (currentUserId s)); simpl; [|eauto].
  destruct (length msgs =? 0); simpl; [eauto|].
  simpl in G. rewrite G. simpl. eauto.
Qed.

Lemma predictMessage_start_open global chatId msgs s :
  gate global s chatId msgs = true →
  let recentMessages := slice_last 20 msgs in
  let req := completionRequest (formatted (currentUserId s) <$> recentMessages) in
  predictMessage_start global chatId msgs s
  = (Returned (Awaiting req),
     with_history s (<[chatId := recentMessages]> (messageHistory s)),
     start_trace recentMessages req).
Proof.
  intros G recentMessages req. pose proof G as G'.
  apply gate_true in G' as (Hc & Hu & Hm & Ha).
  unfold predictMessage_start, bind at 1, get.
  rewrite Hu, Ha, (proj2 (strict_eq_true _ _) Hc).
  destruct (length msgs =? 0) eqn:E.
  { apply Nat.eqb_eq in E. by destruct msgs. }
  simpl. unfold try_catch, bind at 1. rewrite setHistory_run.
  unfold bind at 1, console_log at 1, emit at 1.
  unfold bind at 1. rewrite mapM_formatMessage. fold recentMessages.
  rewrite length_fmap.
  destruct (length recentMessages =? 0) eqn:E'.
  { apply Nat.eqb_eq, nil_length_inv in E'.
    apply slice_last_nil_inv in E'; [done|lia]. }
  simpl. unfold start_trace. simpl. reflexivity.
Qed.

(** ** [predictMessage] after the [await] *)

Lemma predictMessage_resume_ok callbacks chatId completion s :
  predictMessage_resume callbacks chatId (inr completion) s
  = (Returned
       (match first_throw callbacks chatId (firstChoiceText completion)
                (predictionListeners s) with
        | None => firstChoiceText completion
        | Some _ => ""
        end), s,
     ConsoleLog "Received prediction:"
     :: ((λ l, ListenerCall l chatId (firstChoiceText completion))
           <$> notified callbacks chatId (firstChoiceText completion)
                 (predictionListeners s))
     ++ match first_throw callbacks chatId (firstChoiceText completion)
              (predictionListeners s) with
        | None => []
        | Some error => [ConsoleError "Error predicting message:" error]
        end).
Proof.
  unfold predictMessage_resume, try_catch, bind at 1. simpl.
  unfold bind at 1. simpl. unfold bind at 1.
  rewrite notifyPredictionListeners_run.
  destruct (first_throw _ _ _ _); simpl; [done|]. by rewrite !app_nil_r.
Qed.

Lemma predictMessage_resume_error callbacks chatId error s :
  predictMessage_resume callbacks chatId (inl error) s
  = (Returned "", s, [ConsoleError "Error predicting message:" error]).
Proof. reflexivity. Qed.

Lemma predictMessage_resume_state callbacks chatId answer s :
  state_after (predictMessage_resume callbacks chatId answer s) = s.
Proof.
  destruct answer; [reflexivity|]. by rewrite predictMessage_resume_ok.
Qed.



Lemma predictMessage_closed create callbacks global chatId msgs s :
  gate global s chatId msgs = false →
  ∃ label,
    predictMessage create callbacks global chatId msgs s
    = (Returned "", s, [ConsoleLog label]).
Proof.
  intros G. destruct (predictMessage_start_closed _ _ _ _ G) as [label E].
  exists label. unfold predictMessage, bind. by rewrite E.
Qed.

Lemma predictMessage_open create callbacks global chatId msgs s :
  gate global s chatId msgs = true →
  let recentMessages := slice_last 20 msgs in
  let req := completionRequest (formatted (currentUserId s) <$> recentMessages) in
  let s' := with_history s (<[chatId := recentMessages]> (messageHistory s)) in
  predictMessage create callbacks global chatId msgs s
  = (result (predictMessage_resume callbacks chatId (create req) s'), s',
     start_trace recentMessages req
     ++ trace (predictMessage_resume callbacks chatId (create req) s')).
Proof.
  intros G recentMessages req s'.
  unfold predictMessage, bind. rewrite (predictMessage_start_open _ _ _ _ G).
  fold recentMessages req s'.
  pose proof (predictMessage_resume_state callbacks chatId (create req) s') as E.
  destruct (predictMessage_resume callbacks chatId (create req) s') as [[o s2] t2].
  unfold state_after, result, trace in *. simpl in *. by rewrite E.
Qed.

(** ** The state each method leaves *)

Lemma setCurrentChat_run chatId s :
  setCurrentChat chatId s
  = (Returned (),
     {| messageHistory := if truthy chatId then messageHistory s else ∅;
        currentChatId := chatId;
        currentUserId := currentUserId s;
        predictionListeners := predictionListeners s |}, []).
Proof. unfold setCurrentChat, bind, get, put. by destruct (truthy chatId). Qed.

Lemma updateHistory_other chatId newMessage s :
  currentChatId s ≠ Some chatId →
  updateHistory chatId newMessage s = (Returned (), s, []).
Proof.
  intros H. apply strict_eq_false in H.
  unfold updateHistory, bind, get. by rewrite H.
Qed.

Lemma updateHistory_active chatId newMessage s :
  currentChatId s = Some chatId →
  let history := default [] (messageHistory s !! chatId) ++ [newMessage] in
  updateHistory chatId newMessage s
  = (Returned (),
     with_history s
       (<[chatId := if 20 <? length history then tail history else history]>
          (messageHistory s)), []).
Proof.
  intros H. apply strict_eq_true in H.
  unfold updateHistory, bind, get. by rewrite H.
Qed.

Lemma clearHistory_run chatId s :
  clearHistory chatId s
  = (Returned (), with_history s (delete chatId (messageHistory s)), []).
Proof. reflexivity. Qed.

Lemma clearPrediction_active callbacks chatId s :
  currentChatId s = Some chatId → chatId ≠ "" →
  clearPrediction callbacks s
  = (match first_throw callbacks chatId "" (predictionListeners s) with
     | None => Returned ()
     | Some error => Thrown error
     end,
     with_history s (delete chatId (messageHistory s)),
     ((λ l, ListenerCall l chatId "")
        <$> notified callbacks chatId "" (predictionListeners s))
     ++ match first_throw callbacks chatId "" (predictionListeners s) with
        | None => [ConsoleLog "Prediction cleared for chat:"]
        | Some _ => []
        end).
Proof.
  intros H Hne. unfold clearPrediction, bind at 1, get. rewrite H.
  simpl. apply String.eqb_neq in Hne. rewrite Hne. simpl.
  unfold bind at 1. rewrite setHistory_run. unfold bind at 1.
  rewrite notifyPredictionListeners_run. simpl.
  destruct (first_throw _ _ _ _); simpl; by rewrite ?app_nil_r.
Qed.

Lemma clearPrediction_state callbacks chatId s :
  currentChatId s = Some chatId → chatId ≠ "" →
  state_after (clearPrediction callbacks s)
  = with_history s (delete chatId (messageHistory s)).
Proof. intros H Hne. by rewrite (clearPrediction_active _ _ _ H Hne). Qed.

Lemma clearPrediction_falsy callbacks s :
  truthy (currentChatId s) = false →
  clearPrediction callbacks s = (Returned (), s, []).
Proof.
  intros H. unfold clearPrediction, bind, get.
  destruct (currentChatId s); [|done]. by rewrite H.
Qed.

(** ** What every reachable state satisfies *)

Lemma capped_empty : capped ∅.
Proof. intros c h. by rewrite lookup_empty. Qed.

Lemma capped_insert (m : gmap string (list Message)) chatId history :
  capped m → length history ≤ 20 → capped (<[chatId := history]> m).
Proof.
  intros Hm Hh c h. rewrite lookup_insert. case_decide.
  - intros [= <-]. done.
  - apply Hm.
Qed.

Lemma capped_delete (m : gmap string (list Message)) chatId :
  capped m → capped (delete chatId m).
Proof.
  intros Hm c h. rewrite lookup_delete. case_decide; [done|apply Hm].
Qed.

Lemma capped_default (m : gmap string (list Message)) chatId :
  capped m → length (default [] (m !! chatId)) ≤ 20.
Proof.
  intros Hm. destruct (m !! chatId) as [h|] eqn:E; simpl; [by eapply Hm|lia].
Qed.

Lemma length_push_shift (history : list Message) newMessage :
  length history ≤ 20 →
  let pushed := history ++ [newMessage] in
  length (if 20 <? length pushed then tail pushed else pushed) ≤ 20.
Proof.
  intros H pushed. destruct (20 <? length pushed) eqn:E.
  - assert (length (tail pushed) = length pushed - 1) as -> by (by destruct pushed; simpl; lia).
    subst pushed. rewrite length_app. simpl. lia.
  - by apply Nat.ltb_ge in E.
Qed.

Lemma NoDup_set_add x s : NoDup s → NoDup (set_add x s).
Proof.
  intros H. unfold set_add. case_bool_decide; [done|].
  apply NoDup_app. split_and!; [done| |apply NoDup_singleton].
  intros y Hy ->%list_elem_of_singleton. done.
Qed.

Lemma NoDup_set_delete x s : NoDup s → NoDup (set_delete x s).
Proof. apply NoDup_filter. Qed.

Lemma predictMessage_start_inv global chatId msgs s :
  inv s → inv (state_after (predictMessage_start global chatId msgs s)).
Proof.
  intros [Hc Hn]. destruct (gate global s chatId msgs) eqn:G.
  - rewrite (predictMessage_start_open _ _ _ _ G). split; [|done].
    apply capped_insert; [done|apply length_slice_last].
  - destruct (predictMessage_start_closed _ _ _ _ G) as [l ->]. done.
Qed.

Lemma updateHistory_inv chatId newMessage s :
  inv s → inv (state_after (updateHistory chatId newMessage s)).
Proof.
  intros [Hc Hn]. destruct (decide (currentChatId s = Some chatId)) as [E|E].
  - rewrite (updateHistory_active _ _ _ E). split; [|done].
    apply capped_insert; [done|]. apply length_push_shift.
    by apply capped_default.
  - by rewrite (updateHistory_other _ _ _ E).
Qed.

Lemma clearPrediction_inv callbacks s :
  inv s → inv (state_after (clearPrediction callbacks s)).
Proof.
  intros [Hc Hn]. destruct (truthy (currentChatId s)) eqn:T.
  - apply truthy_Some in T as (c & E & Hne).
    rewrite (clearPrediction_state _ _ _ E Hne). split; [|done].
    by apply capped_delete.
  - by rewrite clearPrediction_falsy.
Qed.

Lemma step_inv c w : inv (service w) → inv (service (step c w).1).
Proof.
  intros H. pose proof H as [Hc Hn].
  destruct c; simpl.
  - split; [done|]. by apply NoDup_set_add.
  - split; [done|]. by apply NoDup_set_delete.
  - done.
  - rewrite setCurrentChat_run. split; [|done]. simpl.
    destruct (truthy chatId); [done|apply capped_empty].
  - by apply predictMessage_start_inv.
  - unfold regeneratePrediction_start.
    destruct (isAiEnabled global); simpl; [|done].
    by apply predictMessage_start_inv.
  - destruct (pending w !! i); simpl; [|done].
    by rewrite predictMessage_resume_state.
  - by apply updateHistory_inv.
  - split; [|done]. by apply capped_delete.
  - by apply clearPrediction_inv.
Qed.

Lemma run_inv cs w : inv (service w) → inv (service (run cs w).1).
Proof.
  revert w. induction cs as [|c cs IH]; intros w H; [done|].
  simpl. pose proof (step_inv c w H) as H1.
  destruct (step c w) as [w1 t1]. specialize (IH w1 H1).
  by destruct (run cs w1) as [w2 t2].
Qed.

Lemma reachable_inv s : reachable s → inv s.
Proof.
  intros [cs ->]. apply run_inv. split; [apply capped_empty|apply NoDup_nil_2].
Qed.

(** ** Calls to one listener *)

Lemma calls_to_app fn t1 t2 : calls_to fn (t1 ++ t2) = calls_to fn t1 ++ calls_to fn t2.
Proof.
  induction t1 as [|e t1 IH]; [done|].
  destruct e; simpl; try done. destruct (l =? fn); simpl; by rewrite IH.
Qed.

Lemma calls_to_any_app t1 t2 :
  calls_to_any (t1 ++ t2) = calls_to_any t1 ++ calls_to_any t2.
Proof.
  induction t1 as [|e t1 IH]; [done|]. destruct e; simpl; by rewrite ?IH.
Qed.

Lemma calls_to_any_console t : Forall is_console t → calls_to_any t = [].
Proof.
  induction 1 as [|e t He _ IH]; [done|]. by destruct e.
Qed.

Lemma calls_to_notify_absent fn chatId prediction (ls : list PredictionListener) :
  fn ∉ ls → calls_to fn ((λ l, ListenerCall l chatId prediction) <$> ls) = [].
Proof.
  induction ls as [|l ls IH]; [done|].
  intros [Hne Hnin]%not_elem_of_cons. simpl.
  destruct (l =? fn) eqn:E; [apply Nat.eqb_eq in E; congruence|]. by apply IH.
Qed.


Lemma calls_to_console fn t : Forall is_console t → calls_to fn t = [].
Proof.
  induction 1 as [|e t He _ IH]; [done|]. by destruct e.
Qed.

Lemma calls_to_start_trace fn recentMessages req :
  calls_to fn (start_trace recentMessages req) = [].
Proof.
  unfold start_trace. rewrite !calls_to_app. simpl.
  rewrite calls_to_console; [done|].
  apply Forall_fmap, Forall_true. done.
Qed.

Lemma calls_to_start fn global chatId msgs s :
  calls_to fn (trace (predictMessage_start global chatId msgs s)) = [].
Proof.
  destruct (gate global s chatId msgs) eqn:G.
  - rewrite (predictMessage_start_open _ _ _ _ G). apply calls_to_start_trace.
  - by destruct (predictMessage_start_closed _ _ _ _ G) as [l ->].
Qed.

Lemma calls_to_notified_absent fn callbacks chatId prediction ls :
  fn ∉ ls →
  calls_to fn ((λ l, ListenerCall l chatId prediction)
                 <$> notified callbacks chatId prediction ls) = [].
Proof.
  intros H. apply calls_to_notify_absent. intros Hin.
  by apply notified_elem_of in Hin.
Qed.

Lemma calls_to_resume fn callbacks chatId answer s :
  fn ∉ predictionListeners s →
  calls_to fn (trace (predictMessage_resume callbacks chatId answer s)) = [].
Proof.
  intros H. destruct answer as [e|c]; [done|].
  rewrite predictMessage_resume_ok. unfold trace. cbn [snd]. simpl.
  rewrite calls_to_app, calls_to_notified_absent by done.
  by destruct (first_throw _ _ _ _).
Qed.

Lemma calls_to_clearPrediction fn callbacks s :
  fn ∉ predictionListeners s →
  calls_to fn (trace (clearPrediction callbacks s)) = [].
Proof.
  intros H. destruct (truthy (currentChatId s)) eqn:T.
  - apply truthy_Some in T as (c & E & Hne).
    rewrite (clearPrediction_active _ _ _ E Hne). unfold trace. cbn [snd].
    rewrite calls_to_app, calls_to_notified_absent by done.
    by destruct (first_throw _ _ _ _).
  - by rewrite clearPrediction_falsy.
Qed.

Lemma start_listeners global chatId msgs s :
  predictionListeners (state_after (predictMessage_start global chatId msgs s))
  = predictionListeners s.
Proof.
  destruct (gate global s chatId msgs) eqn:G.
  - by rewrite (predictMessage_start_open _ _ _ _ G).
  - by destruct (predictMessage_start_closed _ _ _ _ G) as [l ->].
Qed.

Lemma updateHistory_listeners chatId newMessage s :
  predictionListeners (state_after (updateHistory chatId newMessage s))
  = predictionListeners s.
Proof.
  destruct (decide (currentChatId s = Some chatId)) as [E|E].
  - by rewrite (updateHistory_active _ _ _ E).
  - by rewrite (updateHistory_other _ _ _ E).
Qed.

Lemma clearPrediction_listeners callbacks s :
  predictionListeners (state_after (clearPrediction callbacks s))
  = predictionListeners s.
Proof.
  destruct (truthy (currentChatId s)) eqn:T.
  - apply truthy_Some in T as (c & E & Hne).
    by rewrite (clearPrediction_state _ _ _ E Hne).
  - by rewrite clearPrediction_falsy.
Qed.

Lemma not_elem_of_set_add fn l ls : l ≠ fn → fn ∉ ls → fn ∉ set_add l ls.
Proof.
  intros Hne Hnin. unfold set_add. case_bool_decide; [done|].
  rewrite elem_of_app, list_elem_of_singleton. intros [?|?]; congruence.
Qed.

Lemma elem_of_set_add fn ls : fn ∈ set_add fn ls.
Proof.
  unfold set_add. case_bool_decide; [done|].
  apply elem_of_app. right. by apply list_elem_of_singleton.
Qed.

Lemma not_elem_of_set_delete fn ls : fn ∉ set_delete fn ls.
Proof. unfold set_delete. rewrite list_elem_of_filter. tauto. Qed.

Lemma not_elem_of_set_delete_other fn l ls : fn ∉ ls → fn ∉ set_delete l ls.
Proof. unfold set_delete. rewrite list_elem_of_filter. tauto. Qed.

(** A call other than adding [fn] neither registers [fn] nor calls it. *)
Lemma step_absent fn c w :
  c ≠ CallAddPredictionListener fn →
  fn ∉ predictionListeners (service w) →
  (fn ∉ predictionListeners (service (step c w).1)) ∧ calls_to fn (step c w).2 = [].
Proof.
  intros Hc Hnin. destruct c; simpl.
  - split; [|done]. apply not_elem_of_set_add; [congruence|done].
  - split; [|done]. by apply not_elem_of_set_delete_other.
  - done.
  - by rewrite setCurrentChat_run.
  - rewrite start_listeners. split; [done|apply calls_to_start].
  - unfold regeneratePrediction_start. destruct (isAiEnabled global); simpl; [|done].
    rewrite start_listeners. split; [done|apply calls_to_start].
  - destruct (pending w !! i); simpl; [|done].
    rewrite predictMessage_resume_state. split; [done|by apply calls_to_resume].
  - rewrite updateHistory_listeners. split; [done|].
    destruct (decide (currentChatId (service w) = Some chatId)) as [E|E].
    + by rewrite (updateHistory_active _ _ _ E).
    + by rewrite (updateHistory_other _ _ _ E).
  - done.
  - rewrite clearPrediction_listeners. split; [done|by apply calls_to_clearPrediction].
Qed.

Lemma run_absent fn cs w :
  CallAddPredictionListener fn ∉ cs →
  fn ∉ predictionListeners (service w) →
  calls_to fn (run cs w).2 = [].
Proof.
  revert w. induction cs as [|c cs IH]; intros w Hcs Hnin; [done|].
  apply not_elem_of_cons in Hcs as [Hc Hcs]. simpl.
  destruct (step_absent fn c w) as [H1 H2]; [congruence|done|].
  destruct (step c w) as [w1 t1]. specialize (IH w1 Hcs H1).
  destruct (run cs w1) as [w2 t2]. simpl in *.
  by rewrite calls_to_app, H2, IH.
Qed.

(** * The claims *)

(** ** setCurrentChat *)

(** C1, as stated, fails: with chat "A" current and one message stored for
    it, [setCurrentChat "B"] (an identifier different from the current one)
    does not leave the history map empty. *)
Lemma setCurrentChat_other_chat_keeps_history :
  ¬ (currentChatId in_chat_A ≠ Some "B" →
     messageHistory (state_after (setCurrentChat (Some "B") in_chat_A)) = ∅).
Proof.
  intros H. assert (currentChatId in_chat_A ≠ Some "B") as Hne by discriminate.
  specialize (H Hne). apply (f_equal (λ m, m !! "A")) in H.
  vm_compute in H. discriminate.
Qed.

(** C1, amended: [setCurrentChat] always records its argument as the current
    chat; called with null it leaves the history map empty; called with a
    non-empty identifier, equal to the current chat or not, it leaves the
    history map as it was. *)
Theorem setCurrentChat_history (chatId : option string) (s : OpenAIService) :
  currentChatId (state_after (setCurrentChat chatId s)) = chatId
  ∧ (chatId = None → messageHistory (state_after (setCurrentChat chatId s)) = ∅)
  ∧ (∀ c, chatId = Some c → c ≠ "" →
       messageHistory (state_after (setCurrentChat chatId s)) = messageHistory s).
Proof.
  rewrite setCurrentChat_run. unfold state_after. simpl.
  split_and!; [done| |].
  - by intros ->.
  - intros c -> Hc. simpl. apply String.eqb_neq in Hc. by rewrite Hc.
Qed.

Lemma setCurrentChat_history_witness :
  messageHistory (state_after (setCurrentChat None in_chat_A)) = ∅
  ∧ messageHistory (state_after (setCurrentChat (Some "B") in_chat_A))
    = messageHistory in_chat_A.
Proof.
  split.
  - apply (setCurrentChat_history None in_chat_A). reflexivity.
  - apply (setCurrentChat_history (Some "B") in_chat_A) with (c := "B").
    + reflexivity.
    + discriminate.
Defined.

(** C10: [setCurrentChat ''] empties the history map, as [setCurrentChat null]
    does, and the empty string becomes the current chat id; after it the
    chat-id test of [predictMessage] accepts [''] (with a user set, messages
    given and AI enabled the request goes out) and [updateHistory ''] stores
    its message. *)
Theorem setCurrentChat_empty_string (s : OpenAIService) :
  let s' := state_after (setCurrentChat (Some "") s) in
  messageHistory s' = ∅
  ∧ messageHistory s' = messageHistory (state_after (setCurrentChat None s))
  ∧ currentChatId s' = Some ""
  ∧ (∀ global msgs,
       truthy (currentUserId s) = true → msgs ≠ [] → isAiEnabled global = true →
       gate global s' "" msgs = true
       ∧ ∃ req, result (predictMessage_start global "" msgs s') = Returned (Awaiting req))
  ∧ (∀ newMessage,
       messageHistory (state_after (updateHistory "" newMessage s')) !! ""
       = Some [newMessage]).
Proof.
  intros s'. subst s'. rewrite !setCurrentChat_run. unfold state_after. simpl.
  split_and!; [done|done|done| |by intros newMessage].
  intros global msgs Hu Hm Ha.
  match goal with |- gate _ ?s1 _ _ = _ ∧ _ =>
    assert (gate global s1 "" msgs = true) as G by (by apply gate_true)
  end.
  split; [done|]. rewrite (predictMessage_start_open _ _ _ _ G). eauto.
Qed.

Lemma setCurrentChat_empty_string_witness :
  messageHistory (state_after (setCurrentChat (Some "") in_chat_A)) = ∅
  ∧ ∃ req,
      result (predictMessage_start aiOn "" [hello]
                (state_after (setCurrentChat (Some "") in_chat_A)))
      = Returned (Awaiting req).
Proof.
  pose proof (setCurrentChat_empty_string in_chat_A) as (H1 & _ & _ & H4 & _).
  split; [exact H1|].
  apply (H4 aiOn [hello]); [reflexivity|discriminate|reflexivity].
Defined.

(** ** predictMessage: the gate *)

(** C2: when [chatId] is not the current chat, or no user is set, or the
    message list is empty, or AI is disabled, [predictMessage] returns the
    empty string, leaves the service as it was, sends nothing to the
    endpoint, calls no listener (it only writes to the console) and never
    reaches its [await]. *)
Theorem predictMessage_gating create callbacks (global : Global) (chatId : string)
    (msgs : list Message) (s : OpenAIService) :
  currentChatId s ≠ Some chatId ∨ currentUserId s = None
  ∨ msgs = [] ∨ isAiEnabled global = false →
  result (predictMessage create callbacks global chatId msgs s) = Returned ""
  ∧ state_after (predictMessage create callbacks global chatId msgs s) = s
  ∧ (∀ req, CompletionsCreate req ∉ trace (predictMessage create callbacks global chatId msgs s))
  ∧ (∀ l c p, ListenerCall l c p ∉ trace (predictMessage create callbacks global chatId msgs s))
  ∧ Forall is_console (trace (predictMessage create callbacks global chatId msgs s))
  ∧ result (predictMessage_start global chatId msgs s) = Returned (Resolved "").
Proof.
  intros H. apply gate_false in H.
  destruct (predictMessage_closed create callbacks _ _ _ _ H) as [label ->].
  destruct (predictMessage_start_closed _ _ _ _ H) as [label' ->].
  unfold result, state_after, trace. simpl. split_and!; try done.
  - intros req [=]%list_elem_of_singleton.
  - intros l c p [=]%list_elem_of_singleton.
  - by apply Forall_singleton.
Qed.

Lemma predictMessage_gating_witness :
  result (predictMessage (says "hello!") quiet aiOn "B" [hello] in_chat_A) = Returned ""
  ∧ result (predictMessage (says "hello!") quiet aiOff "A" [hello] in_chat_A) = Returned ""
  ∧ result (predictMessage (says "hello!") quiet aiOn "A" [] in_chat_A) = Returned ""
  ∧ result (predictMessage (says "hello!") quiet aiOn "A" [hello] initial) = Returned "".
Proof.
  split_and!.
  - apply (predictMessage_gating (says "hello!") quiet aiOn "B" [hello] in_chat_A).
    left. discriminate.
  - apply (predictMessage_gating (says "hello!") quiet aiOff "A" [hello] in_chat_A).
    right. right. right. reflexivity.
  - apply (predictMessage_gating (says "hello!") quiet aiOn "A" [] in_chat_A).
    right. right. left. reflexivity.
  - apply (predictMessage_gating (says "hello!") quiet aiOn "A" [hello] initial).
    right. left. reflexivity.
Defined.

(** ** predictMessage: past the gate *)

Lemma endpoint_call_start_trace recentMessages req0 req :
  CompletionsCreate req ∈ start_trace recentMessages req0 → req = req0.
Proof.
  unfold start_trace. rewrite !elem_of_app, list_elem_of_fmap.
  rewrite list_elem_of_singleton, !elem_of_cons, elem_of_nil.
  intros [H|[(m & H & _)|[H|[H|[H|[]]]]]]; congruence.
Qed.

Lemma endpoint_call_resume callbacks chatId answer s req :
  CompletionsCreate req ∉ trace (predictMessage_resume callbacks chatId answer s).
Proof.
  destruct answer as [e|c].
  - intros [=]%list_elem_of_singleton.
  - rewrite predictMessage_resume_ok. unfold trace. cbn [snd].
    rewrite elem_of_cons, elem_of_app, list_elem_of_fmap.
    intros [H|[(l & H & _)|H]]; [congruence|congruence|].
    destruct (first_throw _ _ _ _).
    + apply list_elem_of_singleton in H. congruence.
    + by apply elem_of_nil in H.
Qed.

Lemma endpoint_call_inv create callbacks global chatId msgs s req :
  CompletionsCreate req ∈ trace (predictMessage create callbacks global chatId msgs s) →
  gate global s chatId msgs = true
  ∧ req = completionRequest (formatted (currentUserId s) <$> slice_last 20 msgs).
Proof.
  destruct (gate global s chatId msgs) eqn:G.
  - rewrite (predictMessage_open _ _ _ _ _ _ G). unfold trace at 1. cbn [snd].
    rewrite elem_of_app. intros [H|H].
    + split; [done|]. by apply endpoint_call_start_trace in H.
    + by apply endpoint_call_resume in H.
  - destruct (predictMessage_closed create callbacks _ _ _ _ G) as [label ->].
    intros [=]%list_elem_of_singleton.
Qed.




(** The scenario of the specification: chat C1 current, user alice,
    one message hi from bob, the endpoint answers hello!. *)
Example scenario_hello :
  predictMessage (says "hello!") quiet aiOn "C1" [hello]
    (service (run [CallAddPredictionListener 7; CallSetCurrentUser "alice";
                   CallSetCurrentChat (Some "C1")] world0).1)
  = (Returned "hello!",
     service (run [CallAddPredictionListener 7; CallSetCurrentUser "alice";
                   CallSetCurrentChat (Some "C1");
                   CallPredictMessage aiOn "C1" [hello]] world0).1,
     start_trace [hello]
       (completionRequest [{| turn_role := user; turn_content := "hi" |}])
     ++ [ConsoleLog "Received prediction:"; ListenerCall 7 "C1" "hello!"]).
Proof. reflexivity. Qed.

(** C4: when the request that [predictMessage] sent is answered with an
    error, the [catch] block writes the error to the console and the call
    returns the empty string, with no listener called; and on every input,
    whatever the listeners do, [predictMessage] returns a value: nothing is
    thrown to its caller. *)
Theorem predictMessage_never_throws create callbacks (global : Global) (chatId : string)
    (msgs : list Message) (s : OpenAIService) :
  (∃ text, result (predictMessage create callbacks global chatId msgs s) = Returned text)
  ∧ (∀ req error,
       CompletionsCreate req ∈ trace (predictMessage create callbacks global chatId msgs s) →
       create req = inl error →
       result (predictMessage create callbacks global chatId msgs s) = Returned ""
       ∧ (∃ before,
            trace (predictMessage create callbacks global chatId msgs s)
            = before ++ [ConsoleError "Error predicting message:" error])
       ∧ calls_to_any (trace (predictMessage create callbacks global chatId msgs s)) = [])
  ∧ (∀ error s2,
       predictMessage_resume callbacks chatId (inl error) s2
       = (Returned "", s2, [ConsoleError "Error predicting message:" error])).
Proof.
  split_and!.
  - destruct (gate global s chatId msgs) eqn:G.
    + rewrite (predictMessage_open create callbacks _ _ _ _ G). unfold result at 1. simpl.
      destruct (create _); [by eexists|]. rewrite predictMessage_resume_ok. by eexists.
    + destruct (predictMessage_closed create callbacks _ _ _ _ G) as [label ->]. by eexists.
  - intros req error Hin Herr.
    destruct (endpoint_call_inv _ _ _ _ _ _ _ Hin) as [G ->].
    rewrite (predictMessage_open create callbacks _ _ _ _ G), Herr.
    rewrite predictMessage_resume_error.
    unfold result, trace. cbn [fst snd]. split_and!; [done|by eexists|].
    rewrite calls_to_any_app. unfold start_trace. rewrite !calls_to_any_app.
    simpl. rewrite calls_to_any_console; [done|].
    apply Forall_fmap, Forall_true. done.
  - done.
Qed.

Lemma predictMessage_never_throws_witness :
  result (predictMessage (fails "503") quiet aiOn "A" [hello] in_chat_A) = Returned ""
  ∧ ∃ before,
      trace (predictMessage (fails "503") quiet aiOn "A" [hello] in_chat_A)
      = before ++ [ConsoleError "Error predicting message:" "503"].
Proof.
  pose proof (predictMessage_never_throws (fails "503") quiet aiOn "A" [hello] in_chat_A)
    as (_ & H & _).
  destruct (H (completionRequest [formatted (Some "alice") hello]) "503")
    as (H1 & H2 & _).
  - vm_compute. repeat constructor.
  - reflexivity.
  - split; [exact H1|exact H2].
Defined.

(** ** predictMessage: the request *)

Lemma strict_eq_opt_Some a u : strict_eq_opt a (Some u) = true ↔ a = Some u.
Proof.
  destruct a as [a|]; simpl; [|split; discriminate].
  rewrite String.eqb_eq. split; congruence.
Qed.

(** C6: the request that [predictMessage] sends carries, after the system
    turn, one turn per message of [recentMessages] (the last 20 entries of
    [msgs], all of them when there are at most 20), in the same order; the
    turn has the message's content and nothing of its username, role
    assistant when the message's username is the current user id and role
    user otherwise, an absent username included. *)
Theorem request_turns create callbacks (global : Global) (chatId : string)
    (msgs : list Message) (s : OpenAIService) (req : Request) :
  CompletionsCreate req ∈ trace (predictMessage create callbacks global chatId msgs s) →
  ∃ turns,
    messages req = {| turn_role := system; turn_content := systemPrompt |} :: turns
    ∧ length turns = length (slice_last 20 msgs)
    ∧ (∀ i msg, slice_last 20 msgs !! i = Some msg →
         ∃ turn, turns !! i = Some turn
           ∧ turn_content turn = content msg
           ∧ (username msg = currentUserId s → turn_role turn = assistant)
           ∧ (username msg ≠ currentUserId s → turn_role turn = user))
    ∧ (length msgs ≤ 20 → slice_last 20 msgs = msgs).
Proof.
  intros Hin. destruct (endpoint_call_inv _ _ _ _ _ _ _ Hin) as [G ->].
  apply gate_true in G as (_ & Hu & _ & _).
  apply truthy_Some in Hu as (u & Hu & _).
  eexists. split_and!; [reflexivity|by rewrite length_fmap| |apply slice_last_short].
  intros i msg Hi. exists (formatted (currentUserId s) msg).
  split_and!.
  - by rewrite list_lookup_fmap, Hi.
  - done.
  - intros E. simpl. rewrite Hu in *. apply strict_eq_opt_Some in E. by rewrite E.
  - intros E. simpl. rewrite Hu in *.
    destruct (strict_eq_opt (username msg) (Some u)) eqn:E'; [|done].
    by apply strict_eq_opt_Some in E'.
Qed.

Lemma request_turns_witness :
  CompletionsCreate (completionRequest (formatted (Some "alice") <$> [hello; bye]))
  ∈ trace (predictMessage (says "hello!") quiet aiOn "A" [hello; bye] in_chat_A)
  ∧ ∃ turns,
      messages (completionRequest (formatted (Some "alice") <$> [hello; bye]))
      = {| turn_role := system; turn_content := systemPrompt |} :: turns
      ∧ turns !! 0 = Some {| turn_role := user; turn_content := "hi" |}
      ∧ turns !! 1 = Some {| turn_role := assistant; turn_content := "bye" |}.
Proof.
  assert (CompletionsCreate (completionRequest (formatted (Some "alice") <$> [hello; bye]))
          ∈ trace (predictMessage (says "hello!") quiet aiOn "A" [hello; bye] in_chat_A))
    as Hin by (vm_compute; repeat constructor).
  split; [exact Hin|].
  destruct (request_turns (says "hello!") quiet aiOn "A" [hello; bye] in_chat_A _ Hin)
    as (turns & H1 & _ & H3 & _).
  exists turns. split; [exact H1|].
  destruct (H3 0 hello eq_refl) as (t0 & E0 & C0 & _ & R0).
  destruct (H3 1 bye eq_refl) as (t1 & E1 & C1 & R1 & _).
  rewrite E0, E1. destruct t0 as [r0 c0], t1 as [r1 c1]. simpl in *.
  rewrite C0, C1, R0, R1; [done|reflexivity|discriminate].
Defined.

(** ** regeneratePrediction *)

(** C8: with AI disabled [regeneratePrediction] returns the empty string,
    leaves the service as it was and sends nothing to the endpoint; with AI
    enabled it is [predictMessage] on the same arguments: same result, same
    state, same trace, so the tests of [predictMessage] all apply. *)
Theorem regeneratePrediction_delegates create callbacks (global : Global) (chatId : string)
    (msgs : list Message) (s : OpenAIService) :
  (isAiEnabled global = false →
     result (regeneratePrediction create callbacks global chatId msgs s) = Returned ""
     ∧ state_after (regeneratePrediction create callbacks global chatId msgs s) = s
     ∧ (∀ req, CompletionsCreate req
               ∉ trace (regeneratePrediction create callbacks global chatId msgs s))
     ∧ regeneratePrediction_start global chatId msgs s
       = (Returned (Resolved ""), s, [ConsoleLog "Regeneration skipped: AI is disabled"]))
  ∧ (isAiEnabled global = true →
     regeneratePrediction create callbacks global chatId msgs s
     = predictMessage create callbacks global chatId msgs s
     ∧ regeneratePrediction_start global chatId msgs s
       = predictMessage_start global chatId msgs s).
Proof.
  unfold regeneratePrediction, regeneratePrediction_start.
  split; intros ->; simpl; [|done].
  split_and!; try done.
  intros req [=]%list_elem_of_singleton.
Qed.

Lemma regeneratePrediction_delegates_witness :
  result (regeneratePrediction (says "hello!") quiet aiOff "A" [hello] in_chat_A) = Returned ""
  ∧ regeneratePrediction (says "hello!") quiet aiOn "A" [hello] in_chat_A
    = predictMessage (says "hello!") quiet aiOn "A" [hello] in_chat_A.
Proof.
  split.
  - apply (regeneratePrediction_delegates (says "hello!") quiet aiOff "A" [hello] in_chat_A).
    reflexivity.
  - apply (regeneratePrediction_delegates (says "hello!") quiet aiOn "A" [hello] in_chat_A).
    reflexivity.
Defined.

(** ** The cap on stored histories *)

(** C5, as stated, fails: chat "A" holds 20 messages and chat "B" is the
    current one; [updateHistory "A"] neither appends nor evicts. *)
Lemma updateHistory_other_chat_full_unchanged :
  ¬ (∀ history,
       messageHistory moved_to_B !! "A" = Some history → length history = 20 →
       messageHistory (state_after (updateHistory "A" bye moved_to_B)) !! "A"
       = Some (tail history ++ [bye])).
Proof.
  intros H. specialize (H (replicate 20 hello) eq_refl eq_refl).
  vm_compute in H. discriminate.
Qed.

(** C5, amended: after every sequence of calls, from the start or from any
    reachable state, no stored history is longer than 20 messages; and
    [updateHistory] on the current chat, when 20 messages are stored for
    it, drops the oldest and appends the new one, while [updateHistory] on
    any other chat changes nothing. *)
Theorem history_capped :
  (∀ cs, capped (messageHistory (service (run cs world0).1)))
  ∧ (∀ s waiting cs,
       reachable s →
       capped (messageHistory (service (run cs {| service := s; pending := waiting |}).1)))
  ∧ (∀ s chatId newMessage history,
       currentChatId s = Some chatId →
       messageHistory s !! chatId = Some history → length history = 20 →
       messageHistory (state_after (updateHistory chatId newMessage s)) !! chatId
       = Some (tail history ++ [newMessage]))
  ∧ (∀ s chatId newMessage,
       currentChatId s ≠ Some chatId →
       state_after (updateHistory chatId newMessage s) = s).
Proof.
  split_and!.
  - intros cs. apply reachable_inv. by exists cs.
  - intros s waiting cs Hs%reachable_inv.
    by apply (run_inv cs {| service := s; pending := waiting |}).
  - intros s chatId newMessage history Hc Hh Hlen.
    rewrite (updateHistory_active _ _ _ Hc). unfold state_after. simpl.
    rewrite lookup_insert_eq, Hh. simpl. rewrite length_app, Hlen. simpl.
    by destruct history.
  - intros s chatId newMessage Hc. by rewrite (updateHistory_other _ _ _ Hc).
Qed.

Lemma history_capped_witness :
  length (replicate 20 hello) ≤ 20
  ∧ messageHistory
      (state_after (updateHistory "A" bye
         (state_after (predictMessage (says "ok") quiet aiOn "A" (replicate 25 hello) in_chat_A))))
    !! "A" = Some (replicate 19 hello ++ [bye])
  ∧ state_after (updateHistory "A" bye moved_to_B) = moved_to_B.
Proof.
  pose proof history_capped as (H1 & _ & H3 & H4).
  split_and!.
  - apply (H1 [CallSetCurrentUser "alice"; CallSetCurrentChat (Some "A");
               CallPredictMessage aiOn "A" (replicate 25 hello)] "A").
    reflexivity.
  - apply (H3 _ "A" bye (replicate 20 hello)); reflexivity.
  - apply (H4 moved_to_B "A" bye). discriminate.
Defined.

(** ** clearPrediction *)







(** ** The listener Set *)

(** C9: adding a listener that is already registered changes nothing, so
    adding twice is adding once; and from [removePredictionListener fn] on,
    through any sequence of calls that does not add [fn] again (pending
    predictions settling included), no notification calls [fn]. *)
Theorem listener_set_semantics :
  (∀ fn s, fn ∈ predictionListeners s → addPredictionListener fn s = (Returned (), s, []))
  ∧ (∀ fn s,
       state_after (addPredictionListener fn (state_after (addPredictionListener fn s)))
       = state_after (addPredictionListener fn s))
  ∧ (∀ fn s, fn ∉ predictionListeners (state_after (removePredictionListener fn s)))
  ∧ (∀ fn w cs,
       CallAddPredictionListener fn ∉ cs →
       calls_to fn (run cs (step (CallRemovePredictionListener fn) w).1).2 = []).
Proof.
  assert (∀ fn s, fn ∈ predictionListeners s →
                  addPredictionListener fn s = (Returned (), s, [])) as Hadd.
  { intros fn s Hin. unfold addPredictionListener, bind, get, put, set_add. simpl.
    rewrite bool_decide_eq_true_2 by done. by destruct s. }
  split_and!.
  - exact Hadd.
  - intros fn s. rewrite (Hadd fn (state_after _)); [done|].
    apply elem_of_set_add.
  - intros fn s. apply not_elem_of_set_delete.
  - intros fn w cs Hcs. apply run_absent; [done|]. apply not_elem_of_set_delete.
Qed.

Lemma listener_set_semantics_witness :
  addPredictionListener 7 in_chat_A = (Returned (), in_chat_A, [])
  ∧ calls_to 7
      (run [CallAddPredictionListener 8; CallClearPrediction (throwing 8 "boom");
            CallPredictMessage aiOn "A" [hello];
            EndpointAnswers 0 (says "hello!" (completionRequest [])) quiet]
         (step (CallRemovePredictionListener 7)
            {| service := in_chat_A; pending := [] |}).1).2 = [].
Proof.
  pose proof listener_set_semantics as (H1 & _ & _ & H4).
  split.
  - apply H1. vm_compute. repeat constructor.
  - apply H4.
    repeat (apply not_elem_of_cons; split; [discriminate|]).
    apply not_elem_of_nil.
Defined.

(** * Further properties of the service *)

(** ** updateHistory as a sliding window *)

Lemma push_shift_slice_last {A} (history : list A) (x : A) :
  length history ≤ 20 →
  (if 20 <? length (history ++ [x]) then tail (history ++ [x]) else history ++ [x])
  = slice_last 20 (history ++ [x]).
Proof.
  intros H. unfold slice_last. rewrite length_app. simpl.
  destruct (20 <? length history + 1) eqn:E.
  - apply Nat.ltb_lt in E. replace (length history + 1 - 20) with 1 by lia.
    by destruct history.
  - apply Nat.ltb_ge in E. by replace (length history + 1 - 20) with 0 by lia.
Qed.

Lemma slice_last_idemp_app {A} n (l k : list A) :
  slice_last n (slice_last n l ++ k) = slice_last n (l ++ k).
Proof.
  unfold slice_last. rewrite !length_app, length_drop.
  destruct (decide (length l ≤ n)) as [H|H].
  - replace (length l - n) with 0 by lia. by rewrite Nat.sub_0_r.
  - rewrite <- (drop_app_le l k (length l - n)) by lia.
    rewrite drop_drop. f_equal. lia.
Qed.

(** X1: one [updateHistory] on the current chat stores the last 20 entries
    of the stored history followed by the new message: a chat with nothing
    stored gets the one message, a chat below the cap gets it appended and
    loses nothing; nothing is written to the console, sent or notified. *)
Theorem updateHistory_window (chatId : string) (newMessage : Message)
    (s : OpenAIService) :
  currentChatId s = Some chatId →
  length (default [] (messageHistory s !! chatId)) ≤ 20 →
  updateHistory chatId newMessage s
  = (Returned (),
     with_history s
       (<[chatId := slice_last 20 (default [] (messageHistory s !! chatId) ++ [newMessage])]>
          (messageHistory s)), [])
  ∧ (messageHistory s !! chatId = None →
     messageHistory (state_after (updateHistory chatId newMessage s)) !! chatId
     = Some [newMessage])
  ∧ (∀ history, messageHistory s !! chatId = Some history → length history < 20 →
     messageHistory (state_after (updateHistory chatId newMessage s)) !! chatId
     = Some (history ++ [newMessage])).
Proof.
  intros Hc Hlen. rewrite (updateHistory_active _ _ _ Hc).
  rewrite push_shift_slice_last by done. split_and!; [done| |].
  - intros E. unfold state_after. simpl. by rewrite lookup_insert_eq, E.
  - intros history E Hlt. unfold state_after. simpl. rewrite lookup_insert_eq, E.
    simpl. rewrite slice_last_short; [done|]. rewrite length_app. simpl. lia.
Qed.

Lemma updateHistory_window_witness :
  messageHistory (state_after (updateHistory "A" bye in_chat_A)) !! "A"
  = Some [hello; bye]
  ∧ messageHistory
      (state_after (updateHistory "A" bye (state_after (clearHistory "A" in_chat_A))))
    !! "A" = Some [bye].
Proof.
  assert (1 ≤ 20) as H1 by lia. assert (0 ≤ 20) as H0 by lia.
  destruct (updateHistory_window "A" bye in_chat_A eq_refl H1) as (_ & _ & HA).
  destruct (updateHistory_window "A" bye (state_after (clearHistory "A" in_chat_A))
              eq_refl H0) as (_ & HB & _).
  split.
  - apply (HA [hello] eq_refl). vm_compute. lia.
  - apply HB. reflexivity.
Defined.

Lemma run_updateHistory (chatId : string) (ms : list Message) (w : World) :
  currentChatId (service w) = Some chatId →
  length (default [] (messageHistory (service w) !! chatId)) ≤ 20 →
  (run (CallUpdateHistory chatId <$> ms) w).2 = []
  ∧ pending (run (CallUpdateHistory chatId <$> ms) w).1 = pending w
  ∧ currentChatId (service (run (CallUpdateHistory chatId <$> ms) w).1) = Some chatId
  ∧ default [] (messageHistory (service (run (CallUpdateHistory chatId <$> ms) w).1) !! chatId)
    = slice_last 20 (default [] (messageHistory (service w) !! chatId) ++ ms)
  ∧ ∀ other, other ≠ chatId →
      messageHistory (service (run (CallUpdateHistory chatId <$> ms) w).1) !! other
      = messageHistory (service w) !! other.
Proof.
  revert w. induction ms as [|m ms IH]; intros w Hc Hlen.
  - simpl. rewrite app_nil_r, slice_last_short; done.
  - simpl. unfold run_sync.
    destruct (updateHistory_window chatId m (service w) Hc Hlen) as (E & _ & _).
    rewrite E. unfold state_after, trace. cbn [fst snd].
    match goal with |- context [run _ ?w1] => specialize (IH w1) end.
    simpl in IH. rewrite lookup_insert_eq in IH. simpl in IH.
    destruct IH as (T & P & C & H & O); [done|apply length_slice_last|].
    destruct (run _ _) as [w2 t2]. simpl in *.
    split_and!; [done|done|done| |].
    + rewrite H, slice_last_idemp_app. by rewrite <- app_assoc.
    + intros other Hne. rewrite O by done. by rewrite lookup_insert_ne.
Qed.

(** X2: any number of [updateHistory] calls in a row on the current chat
    leaves, as that chat's history, the last 20 entries of what was stored
    followed by the messages in call order; the other chats' histories,
    the current chat and the pending predictions stay as they were and no
    event is produced. *)
Theorem updateHistory_sequence (chatId : string) (ms : list Message) (w : World) :
  currentChatId (service w) = Some chatId →
  length (default [] (messageHistory (service w) !! chatId)) ≤ 20 →
  default [] (messageHistory (service (run (CallUpdateHistory chatId <$> ms) w).1) !! chatId)
  = slice_last 20 (default [] (messageHistory (service w) !! chatId) ++ ms)
  ∧ (∀ other, other ≠ chatId →
       messageHistory (service (run (CallUpdateHistory chatId <$> ms) w).1) !! other
       = messageHistory (service w) !! other)
  ∧ (run (CallUpdateHistory chatId <$> ms) w).2 = []
  ∧ pending (run (CallUpdateHistory chatId <$> ms) w).1 = pending w.
Proof.
  intros Hc Hlen.
  destruct (run_updateHistory chatId ms w Hc Hlen) as (T & P & _ & H & O).
  done.
Qed.

Lemma updateHistory_sequence_witness :
  default []
    (messageHistory
       (service (run (CallUpdateHistory "A" <$> replicate 30 bye)
                   {| service := in_chat_A; pending := [] |}).1) !! "A")
  = replicate 20 bye.
Proof.
  destruct (updateHistory_sequence "A" (replicate 30 bye)
              {| service := in_chat_A; pending := [] |} eq_refl) as (H & _).
  - vm_compute. lia.
  - rewrite H. reflexivity.
Defined.

(** X3: a prediction on [msgs] followed by [updateHistory] with one more
    message stores the history that a prediction on [msgs] with that
    message appended stores: both paths keep the same 20-message window. *)
Theorem predict_then_update create create' callbacks callbacks' (global : Global) (chatId : string)
    (msgs : list Message) (newMessage : Message) (s : OpenAIService) :
  gate global s chatId msgs = true →
  messageHistory
    (state_after (updateHistory chatId newMessage
                    (state_after (predictMessage create callbacks global chatId msgs s))))
  = messageHistory
      (state_after (predictMessage create' callbacks' global chatId (msgs ++ [newMessage]) s)).
Proof.
  intros G.
  assert (gate global s chatId (msgs ++ [newMessage]) = true) as G'.
  { apply gate_true in G as (? & ? & ? & ?). apply gate_true.
    split_and!; try done. by destruct msgs. }
  rewrite (predictMessage_open create callbacks _ _ _ _ G).
  rewrite (predictMessage_open create' callbacks' _ _ _ _ G').
  unfold state_after at 2 3. cbn [fst snd].
  apply gate_true in G as (Hc & _).
  destruct (updateHistory_window chatId newMessage
              (with_history s (<[chatId:=slice_last 20 msgs]> (messageHistory s))))
    as (E & _); [done| |].
  { simpl. rewrite lookup_insert_eq. simpl. apply length_slice_last. }
  rewrite E. unfold state_after. simpl.
  rewrite lookup_insert_eq. simpl.
  by rewrite insert_insert_eq, slice_last_idemp_app.
Qed.

Lemma predict_then_update_witness :
  messageHistory
    (state_after (updateHistory "A" bye
       (state_after (predictMessage (says "ok") quiet aiOn "A" (replicate 20 hello) in_chat_A))))
  = messageHistory
      (state_after (predictMessage (fails "503") (throwing 7 "boom") aiOn "A"
                      (replicate 20 hello ++ [bye]) in_chat_A)).
Proof.
  apply (predict_then_update (says "ok") (fails "503") quiet (throwing 7 "boom") aiOn "A"
           (replicate 20 hello) bye in_chat_A).
  reflexivity.
Defined.

(** ** clearHistory *)

(** X4: [clearHistory] removes the given chat's history whether or not the
    chat is the current one, keeps every other chat's history and produces
    no event; on the current chat it undoes an [updateHistory] that stored
    the chat's first message, and an [updateHistory] after it starts the
    history anew with that one message. *)
Theorem clearHistory_roundtrip (chatId : string) (newMessage : Message)
    (s : OpenAIService) :
  messageHistory (state_after (clearHistory chatId s)) !! chatId = None
  ∧ (∀ other, other ≠ chatId →
       messageHistory (state_after (clearHistory chatId s)) !! other
       = messageHistory s !! other)
  ∧ trace (clearHistory chatId s) = []
  ∧ (currentChatId s = Some chatId → messageHistory s !! chatId = None →
     state_after (clearHistory chatId (state_after (updateHistory chatId newMessage s)))
     = s)
  ∧ (currentChatId s = Some chatId →
     messageHistory
       (state_after (updateHistory chatId newMessage (state_after (clearHistory chatId s))))
     !! chatId = Some [newMessage]).
Proof.
  rewrite clearHistory_run. unfold state_after at 1 2, trace. cbn [fst snd].
  split_and!.
  - apply lookup_delete_eq.
  - intros other Hne. simpl. by rewrite lookup_delete_ne.
  - done.
  - intros Hc Hn. rewrite (updateHistory_active _ _ _ Hc), clearHistory_run.
    unfold state_after. simpl. rewrite delete_insert_id by done. by destruct s.
  - intros Hc. rewrite (updateHistory_active chatId newMessage (state_after _)) by done.
    unfold state_after. simpl. by rewrite lookup_insert_eq, lookup_delete_eq.
Qed.

Lemma clearHistory_roundtrip_witness :
  state_after (clearHistory "B" (state_after (updateHistory "B" bye moved_to_B)))
  = moved_to_B
  ∧ messageHistory
      (state_after (updateHistory "A" bye (state_after (clearHistory "A" in_chat_A))))
    !! "A" = Some [bye].
Proof.
  split.
  - apply (clearHistory_roundtrip "B" bye moved_to_B); reflexivity.
  - apply (clearHistory_roundtrip "A" bye in_chat_A). reflexivity.
Defined.

(** ** Listeners: registration order and removal *)

Lemma set_delete_absent fn ls : fn ∉ ls → set_delete fn ls = ls.
Proof.
  unfold set_delete. induction ls as [|l ls IH]; [done|].
  intros [Hne Hnin]%not_elem_of_cons. rewrite filter_cons_True by done.
  by rewrite IH.
Qed.

Lemma set_delete_add fn ls : fn ∉ ls → set_delete fn (set_add fn ls) = ls.
Proof.
  intros H. unfold set_add. rewrite bool_decide_eq_false_2 by done.
  unfold set_delete. rewrite filter_app.
  fold (set_delete fn ls). rewrite set_delete_absent by done.
  rewrite filter_cons_False by (intros ?; done). by rewrite filter_nil, app_nil_r.
Qed.

(** X5: for a listener that is not registered, [removePredictionListener]
    changes nothing, [addPredictionListener] puts it last in the order in
    which listeners are called, and adding then removing it gives back the
    service as it was. *)
Theorem listener_add_remove (fn : PredictionListener) (s : OpenAIService) :
  fn ∉ predictionListeners s →
  removePredictionListener fn s = (Returned (), s, [])
  ∧ predictionListeners (state_after (addPredictionListener fn s))
    = predictionListeners s ++ [fn]
  ∧ state_after (removePredictionListener fn (state_after (addPredictionListener fn s)))
    = s.
Proof.
  intros H. unfold removePredictionListener, addPredictionListener, bind, get, put,
    state_after. simpl. rewrite set_delete_add, set_delete_absent by done.
  split_and!; [by destruct s| |by destruct s].
  unfold set_add. by rewrite bool_decide_eq_false_2.
Qed.

Lemma listener_add_remove_witness :
  removePredictionListener 8 in_chat_A = (Returned (), in_chat_A, [])
  ∧ predictionListeners (state_after (addPredictionListener 8 in_chat_A)) = [7; 8].
Proof.
  assert (8 ∉ predictionListeners in_chat_A) as H.
  { vm_compute. intros H. inversion H as [|? ? ? H']; inversion H'. }
  destruct (listener_add_remove 8 in_chat_A H) as (H1 & H2 & _).
  split; [exact H1|exact H2].
Defined.

(** ** clearPrediction, repeated *)



(** ** Requests to the endpoint *)

Lemma requests_app t1 t2 : requests (t1 ++ t2) = requests t1 ++ requests t2.
Proof.
  induction t1 as [|e t1 IH]; [done|]. destruct e; simpl; by rewrite ?IH.
Qed.

Lemma requests_console t : Forall is_console t → requests t = [].
Proof. induction 1 as [|e t He _ IH]; [done|]. by destruct e. Qed.

Lemma requests_start_trace recentMessages req :
  requests (start_trace recentMessages req) = [req].
Proof.
  unfold start_trace. rewrite !requests_app. simpl.
  rewrite requests_console; [done|]. apply Forall_fmap, Forall_true. done.
Qed.

Lemma requests_notify chatId prediction (ls : list PredictionListener) :
  requests ((λ l, ListenerCall l chatId prediction) <$> ls) = [].
Proof. induction ls; done. Qed.

Lemma requests_resume callbacks chatId answer s :
  requests (trace (predictMessage_resume callbacks chatId answer s)) = [].
Proof.
  destruct answer as [e|c]; [done|]. rewrite predictMessage_resume_ok.
  unfold trace. cbn [snd]. simpl. rewrite requests_app, requests_notify.
  by destruct (first_throw _ _ _ _).
Qed.

Lemma requests_start global chatId msgs s :
  requests (trace (predictMessage_start global chatId msgs s))
  = if gate global s chatId msgs
    then [completionRequest (formatted (currentUserId s) <$> slice_last 20 msgs)]
    else [].
Proof.
  destruct (gate global s chatId msgs) eqn:G.
  - rewrite (predictMessage_start_open _ _ _ _ G). apply requests_start_trace.
  - by destruct (predictMessage_start_closed _ _ _ _ G) as [label ->].
Qed.

(** X7: one call of [predictMessage] sends exactly one request when the
    four tests pass and none otherwise, whatever the endpoint answers: an
    error is not followed by a second attempt. *)
Theorem predictMessage_one_request create callbacks (global : Global) (chatId : string)
    (msgs : list Message) (s : OpenAIService) :
  requests (trace (predictMessage create callbacks global chatId msgs s))
  = if gate global s chatId msgs
    then [completionRequest (formatted (currentUserId s) <$> slice_last 20 msgs)]
    else [].
Proof.
  destruct (gate global s chatId msgs) eqn:G.
  - rewrite (predictMessage_open create callbacks _ _ _ _ G). unfold trace at 1. cbn [snd].
    by rewrite requests_app, requests_start_trace, requests_resume.
  - by destruct (predictMessage_closed create callbacks _ _ _ _ G) as [label ->].
Qed.

(** ** What each call can change *)

Lemma with_history_same s : with_history s (messageHistory s) = s.
Proof. by destruct s. Qed.

Lemma predictMessage_start_with_history global chatId msgs s :
  ∃ h, state_after (predictMessage_start global chatId msgs s) = with_history s h.
Proof.
  destruct (gate global s chatId msgs) eqn:G.
  - rewrite (predictMessage_start_open _ _ _ _ G). by eexists.
  - destruct (predictMessage_start_closed _ _ _ _ G) as [label ->].
    exists (messageHistory s). by rewrite with_history_same.
Qed.

Lemma updateHistory_with_history chatId newMessage s :
  ∃ h, state_after (updateHistory chatId newMessage s) = with_history s h.
Proof.
  destruct (decide (currentChatId s = Some chatId)) as [E|E].
  - rewrite (updateHistory_active _ _ _ E). by eexists.
  - rewrite (updateHistory_other _ _ _ E).
    exists (messageHistory s). by rewrite with_history_same.
Qed.

Lemma clearPrediction_with_history callbacks s :
  ∃ h, state_after (clearPrediction callbacks s) = with_history s h.
Proof.
  destruct (truthy (currentChatId s)) eqn:T.
  - apply truthy_Some in T as (c & E & Hne).
    rewrite (clearPrediction_state _ _ _ E Hne). by eexists.
  - rewrite clearPrediction_falsy by done.
    exists (messageHistory s). by rewrite with_history_same.
Qed.

Lemma step_fields c w :
  (¬ edits_listeners c →
   predictionListeners (service (step c w).1) = predictionListeners (service w))
  ∧ (¬ sets_chat c → currentChatId (service (step c w).1) = currentChatId (service w))
  ∧ (¬ sets_user c → currentUserId (service (step c w).1) = currentUserId (service w)).
Proof.
  destruct c; simpl.
  - split_and!; [intros H; by destruct H|done|done].
  - split_and!; [intros H; by destruct H|done|done].
  - split_and!; [done|done|intros H; by destruct H].
  - rewrite setCurrentChat_run. split_and!; [done|intros H; by destruct H|done].
  - destruct (predictMessage_start_with_history global chatId msgs (service w)) as [h ->].
    done.
  - unfold regeneratePrediction_start. destruct (isAiEnabled global); simpl; [|done].
    destruct (predictMessage_start_with_history global chatId msgs (service w)) as [h ->].
    done.
  - destruct (pending w !! i); simpl; [|done]. by rewrite predictMessage_resume_state.
  - destruct (updateHistory_with_history chatId newMessage (service w)) as [h ->]. done.
  - done.
  - destruct (clearPrediction_with_history callbacks (service w)) as [h ->]. done.
Qed.

(** X8: the listener Set is changed by [addPredictionListener] and
    [removePredictionListener] only, the current chat by [setCurrentChat]
    only and the current user by [setCurrentUser] only: no prediction,
    history update, clear or endpoint answer touches them. *)
Theorem fields_changed_by_their_setters_only (c : Call) (w : World) :
  (¬ edits_listeners c →
   predictionListeners (service (step c w).1) = predictionListeners (service w))
  ∧ (¬ sets_chat c → currentChatId (service (step c w).1) = currentChatId (service w))
  ∧ (¬ sets_user c → currentUserId (service (step c w).1) = currentUserId (service w)).
Proof. apply step_fields. Qed.

Lemma fields_changed_by_their_setters_only_witness :
  predictionListeners (service (step (CallClearPrediction (throwing 7 "boom"))
                                  {| service := in_chat_A; pending := [] |}).1) = [7]
  ∧ currentChatId (service (step (CallPredictMessage aiOn "A" [hello])
                              {| service := in_chat_A; pending := [] |}).1) = Some "A"
  ∧ currentUserId (service (step (CallSetCurrentChat None)
                              {| service := in_chat_A; pending := [] |}).1) = Some "alice".
Proof.
  split_and!.
  - apply (fields_changed_by_their_setters_only (CallClearPrediction (throwing 7 "boom"))
             {| service := in_chat_A; pending := [] |}). intros [].
  - apply (fields_changed_by_their_setters_only (CallPredictMessage aiOn "A" [hello])
             {| service := in_chat_A; pending := [] |}). intros [].
  - apply (fields_changed_by_their_setters_only (CallSetCurrentChat None)
             {| service := in_chat_A; pending := [] |}). intros [].
Defined.

Lemma gate_without_user global s chatId msgs :
  truthy (currentUserId s) = false → gate global s chatId msgs = false.
Proof.
  intros H. unfold gate. rewrite H. by rewrite andb_false_r.
Qed.

Lemma gate_without_chat global s chatId msgs :
  currentChatId s = None → gate global s chatId msgs = false.
Proof. intros H. unfold gate. by rewrite H. Qed.

Lemma requests_clearPrediction callbacks s : requests (trace (clearPrediction callbacks s)) = [].
Proof.
  destruct (truthy (currentChatId s)) eqn:T.
  - apply truthy_Some in T as (c & E & Hne).
    rewrite (clearPrediction_active _ _ _ E Hne). unfold trace. cbn [snd].
    rewrite requests_app, requests_notify. by destruct (first_throw _ _ _ _).
  - by rewrite clearPrediction_falsy.
Qed.

Lemma trace_updateHistory chatId newMessage s :
  trace (updateHistory chatId newMessage s) = [].
Proof.
  destruct (decide (currentChatId s = Some chatId)) as [E|E].
  - by rewrite (updateHistory_active _ _ _ E).
  - by rewrite (updateHistory_other _ _ _ E).
Qed.

Lemma step_requests c w :
  requests (step c w).2
  = match c with
    | CallPredictMessage global chatId msgs
    | CallRegeneratePrediction global chatId msgs =>
        if gate global (service w) chatId msgs
        then [completionRequest
                (formatted (currentUserId (service w)) <$> slice_last 20 msgs)]
        else []
    | _ => []
    end.
Proof.
  destruct c; simpl; try done.
  - by rewrite setCurrentChat_run.
  - apply requests_start.
  - unfold regeneratePrediction_start. destruct (isAiEnabled global) eqn:E; simpl.
    + apply requests_start.
    + unfold gate. rewrite E. by rewrite andb_false_r.
  - destruct (pending w !! i); simpl; [apply requests_resume|done].
  - fold (trace (updateHistory chatId newMessage (service w))).
    by rewrite trace_updateHistory.
  - apply requests_clearPrediction.
Qed.

(** X9: while the current user id is null or the empty string, no sequence
    of calls sends a request to the endpoint, until [setCurrentUser] is
    called. *)
Theorem no_request_without_user (cs : list Call) (w : World) :
  truthy (currentUserId (service w)) = false →
  Forall (λ c, ¬ sets_user c) cs →
  requests (run cs w).2 = [].
Proof.
  revert w. induction cs as [|c cs IH]; intros w Hu Hcs; [done|].
  apply Forall_cons in Hcs as [Hc Hcs]. simpl.
  pose proof (step_requests c w) as R.
  destruct (step_fields c w) as (_ & _ & U). specialize (U Hc).
  destruct (step c w) as [w1 t1]. simpl in *.
  rewrite <- U in Hu. specialize (IH w1 Hu Hcs).
  destruct (run cs w1) as [w2 t2]. simpl in *.
  rewrite requests_app, IH, R, app_nil_r.
  rewrite U in Hu. destruct c; try done; by rewrite gate_without_user.
Qed.

Lemma no_request_without_user_witness :
  requests
    (run [CallSetCurrentChat (Some "A"); CallUpdateHistory "A" hello;
          CallPredictMessage aiOn "A" [hello];
          CallRegeneratePrediction aiOn "A" [hello]]
       (step (CallSetCurrentUser "") {| service := in_chat_A; pending := [] |}).1).2
  = [].
Proof.
  apply no_request_without_user; [reflexivity|].
  repeat (apply Forall_cons; split; [intros []|]). apply Forall_nil_2.
Defined.

Lemma step_without_chat c w :
  currentChatId (service w) = None → messageHistory (service w) = ∅ →
  ¬ sets_chat c →
  messageHistory (service (step c w).1) = ∅.
Proof.
  intros Hc Hh Hn. destruct c; simpl.
  - done.
  - done.
  - done.
  - by destruct Hn.
  - destruct (predictMessage_start_closed global chatId msgs (service w)) as [l ->];
      [by apply gate_without_chat|done].
  - unfold regeneratePrediction_start. destruct (isAiEnabled global); simpl; [|done].
    destruct (predictMessage_start_closed global chatId msgs (service w)) as [l ->];
      [by apply gate_without_chat|done].
  - destruct (pending w !! i); simpl; [|done]. by rewrite predictMessage_resume_state.
  - rewrite updateHistory_other; [done|]. by rewrite Hc.
  - rewrite Hh. apply delete_empty.
  - rewrite clearPrediction_falsy; [done|]. by rewrite Hc.
Qed.

(** X10: while the current chat is null and nothing is stored (as at the
    start, and after [setCurrentChat(null)]), every sequence of calls
    without [setCurrentChat] leaves the history map empty and sends no
    request: nothing is stored or predicted for a chat that was not made
    current. *)
Theorem no_history_without_chat (cs : list Call) (w : World) :
  currentChatId (service w) = None → messageHistory (service w) = ∅ →
  Forall (λ c, ¬ sets_chat c) cs →
  messageHistory (service (run cs w).1) = ∅ ∧ requests (run cs w).2 = [].
Proof.
  revert w. induction cs as [|c cs IH]; intros w Hc Hh Hcs; [done|].
  apply Forall_cons in Hcs as [Hn Hcs]. simpl.
  pose proof (step_requests c w) as R.
  pose proof (step_without_chat c w Hc Hh Hn) as H1.
  destruct (step_fields c w) as (_ & C & _). specialize (C Hn).
  destruct (step c w) as [w1 t1]. simpl in *.
  rewrite Hc in C. destruct (IH w1 C H1 Hcs) as [IH1 IH2].
  destruct (run cs w1) as [w2 t2]. simpl in *.
  split; [done|]. rewrite requests_app, IH2, R, app_nil_r.
  destruct c; try done; by rewrite gate_without_chat.
Qed.

Lemma no_history_without_chat_witness :
  messageHistory
    (service (run [CallSetCurrentUser "alice"; CallUpdateHistory "A" hello;
                   CallPredictMessage aiOn "A" [hello]] world0).1) = ∅.
Proof.
  apply no_history_without_chat; [reflexivity|reflexivity|].
  repeat (apply Forall_cons; split; [intros []|]). apply Forall_nil_2.
Defined.

(** X11: a call never writes the history of a chat that is not the current
    one when the call is made: afterwards that chat's history is what it
    was, or is gone. *)
Theorem history_written_for_current_chat_only (c : Call) (w : World) (other : string) :
  currentChatId (service w) ≠ Some other →
  messageHistory (service (step c w).1) !! other = messageHistory (service w) !! other
  ∨ messageHistory (service (step c w).1) !! other = None.
Proof.
  intros Hne. destruct c; simpl; try by left.
  - rewrite setCurrentChat_run. simpl. destruct (truthy chatId); [by left|by right].
  - destruct (gate global (service w) chatId msgs) eqn:G.
    + rewrite (predictMessage_start_open _ _ _ _ G).
      apply gate_true in G as (Hc & _). left. unfold state_after. simpl.
      apply lookup_insert_ne. congruence.
    + destruct (predictMessage_start_closed _ _ _ _ G) as [l ->]. by left.
  - unfold regeneratePrediction_start. destruct (isAiEnabled global); simpl; [|by left].
    destruct (gate global (service w) chatId msgs) eqn:G.
    + rewrite (predictMessage_start_open _ _ _ _ G).
      apply gate_true in G as (Hc & _). left. unfold state_after. simpl.
      apply lookup_insert_ne. congruence.
    + destruct (predictMessage_start_closed _ _ _ _ G) as [l ->]. by left.
  - destruct (pending w !! i); simpl; [|by left].
    rewrite predictMessage_resume_state. by left.
  - destruct (decide (currentChatId (service w) = Some chatId)) as [E|E].
    + rewrite (updateHistory_active _ _ _ E). left. unfold state_after. simpl.
      apply lookup_insert_ne. congruence.
    + rewrite (updateHistory_other _ _ _ E). by left.
  - unfold state_after. simpl. destruct (decide (chatId = other)) as [->|E].
    + right. apply lookup_delete_eq.
    + left. by apply lookup_delete_ne.
  - destruct (truthy (currentChatId (service w))) eqn:T.
    + apply truthy_Some in T as (c & E & Hc).
      rewrite (clearPrediction_state _ _ _ E Hc). left. simpl.
      apply lookup_delete_ne. congruence.
    + rewrite clearPrediction_falsy by done. by left.
Qed.

Lemma history_written_for_current_chat_only_witness :
  messageHistory
    (service (step (CallPredictMessage aiOn "B" [bye])
                {| service := moved_to_B; pending := [] |}).1) !! "A"
  = Some (replicate 20 hello).
Proof.
  destruct (history_written_for_current_chat_only (CallPredictMessage aiOn "B" [bye])
              {| service := moved_to_B; pending := [] |} "A" ltac:(discriminate))
    as [H|H].
  - rewrite H. reflexivity.
  - vm_compute in H. discriminate H.
Defined.

(** ** Who is notified, and when *)

Lemma calls_to_any_start global chatId msgs s :
  calls_to_any (trace (predictMessage_start global chatId msgs s)) = [].
Proof.
  destruct (gate global s chatId msgs) eqn:G.
  - rewrite (predictMessage_start_open _ _ _ _ G). unfold trace, start_trace.
    cbn [snd]. rewrite !calls_to_any_app. simpl.
    rewrite calls_to_any_console; [done|]. apply Forall_fmap, Forall_true. done.
  - by destruct (predictMessage_start_closed _ _ _ _ G) as [l ->].
Qed.

(** X12: listeners are called by [clearPrediction] and by the completion
    that answers a pending prediction, and by nothing else: not by the
    setters, [updateHistory] or [clearHistory], not when a prediction is
    started, and not when the endpoint answers with an error. *)
Theorem listeners_called_by (c : Call) (w : World) :
  calls_to_any (step c w).2 ≠ [] →
  (∃ callbacks, c = CallClearPrediction callbacks)
  ∨ ∃ i completion callbacks, c = EndpointAnswers i (inr completion) callbacks.
Proof.
  destruct c; simpl; try done.
  - by rewrite setCurrentChat_run.
  - fold (trace (predictMessage_start global chatId msgs (service w))).
    by rewrite calls_to_any_start.
  - unfold regeneratePrediction_start. destruct (isAiEnabled global); simpl; [|done].
    fold (trace (predictMessage_start global chatId msgs (service w))).
    by rewrite calls_to_any_start.
  - destruct answer as [e|completion]; [|by eauto].
    by destruct (pending w !! i).
  - fold (trace (updateHistory chatId newMessage (service w))).
    by rewrite trace_updateHistory.
  - by eauto.
Qed.

Lemma listeners_called_by_witness :
  calls_to_any (step (CallClearPrediction quiet)
                  {| service := in_chat_A; pending := [] |}).2
  = [(7, "A", "")]
  ∧ ((∃ callbacks, CallClearPrediction quiet = CallClearPrediction callbacks)
     ∨ ∃ i completion callbacks,
         CallClearPrediction quiet = EndpointAnswers i (inr completion) callbacks).
Proof.
  split; [reflexivity|].
  apply (listeners_called_by (CallClearPrediction quiet)
           {| service := in_chat_A; pending := [] |}).
  discriminate.
Defined.



(** ** Lines never written, and the shape of the request *)

Lemma predictMessage_start_closed_label global chatId msgs s :
  gate global s chatId msgs = false →
  ∃ label,
    predictMessage_start global chatId msgs s
    = (Returned (Resolved ""), s, [ConsoleLog label])
    ∧ (label = "Prediction skipped: wrong chat or no user"
       ∨ label = "Prediction skipped: no messages"
       ∨ label = "Prediction skipped: AI is disabled").
Proof.
  unfold gate, predictMessage_start, bind, get. simpl. intros G.
  destruct (strict_eq chatId (currentChatId s)); simpl; [|eauto].
  destruct (truthy (currentUserId s)); simpl; [|eauto].
  destruct (length msgs =? 0); simpl; [eauto 6|].
  simpl in G. rewrite G. simpl. eauto 6.
Qed.

(** X14: the console line "Prediction skipped: no formatted messages" is
    never written and the early return it guards (lines 95 to 98) is never
    taken: an empty message list has already returned at line 65, and a
    non-empty one gives a non-empty list of turns. *)
Theorem no_formatted_messages_unreachable create callbacks (global : Global)
    (chatId : string) (msgs : list Message) (s : OpenAIService) :
  (ConsoleLog "Prediction skipped: no formatted messages"
   ∉ trace (predictMessage create callbacks global chatId msgs s))
  ∧ (ConsoleLog "Prediction skipped: no formatted messages"
     ∉ trace (predictMessage_start global chatId msgs s)).
Proof.
  assert (∀ recentMessages req,
            ConsoleLog "Prediction skipped: no formatted messages"
            ∉ start_trace recentMessages req) as Hstart.
  { intros recentMessages req. unfold start_trace.
    rewrite !elem_of_app, list_elem_of_fmap.
    rewrite list_elem_of_singleton, !elem_of_cons, elem_of_nil.
    intros [H|[(m & H & _)|[H|[H|[H|[]]]]]]; discriminate. }
  destruct (gate global s chatId msgs) eqn:G.
  - rewrite (predictMessage_open create callbacks _ _ _ _ G).
    rewrite (predictMessage_start_open _ _ _ _ G). unfold trace at 1 3. cbn [snd].
    split; [|apply Hstart]. rewrite elem_of_app. intros [H|H].
    + by apply Hstart in H.
    + destruct (create _) as [e|completion].
      * apply list_elem_of_singleton in H. discriminate.
      * rewrite predictMessage_resume_ok in H. unfold trace in H. cbn [snd] in H.
        apply elem_of_cons in H as [H|H]; [discriminate|].
        apply elem_of_app in H as [H|H].
        -- apply list_elem_of_fmap in H as (l & H & _). discriminate.
        -- destruct (first_throw _ _ _ _); [|by apply elem_of_nil in H].
           apply list_elem_of_singleton in H. discriminate.
  - destruct (predictMessage_start_closed_label _ _ _ _ G) as (label & E & Hl).
    unfold predictMessage, bind. rewrite E. unfold trace. simpl.
    split; intros H%list_elem_of_singleton; destruct Hl as [->|[->| ->]]; discriminate.
Qed.

Lemma length_slice_last_min {A} n (l : list A) :
  length (slice_last n l) = length l `min` n.
Proof. unfold slice_last. rewrite length_drop. lia. Qed.

(** X15: every request sent carries the fixed model and limits, starts with
    the system turn, and has after it one turn per message of the last 20:
    between 2 and 21 turns in all, none but the first with role system,
    whatever roles the given messages have. *)
Theorem request_shape create callbacks (global : Global) (chatId : string)
    (msgs : list Message) (s : OpenAIService) (req : Request) :
  CompletionsCreate req ∈ trace (predictMessage create callbacks global chatId msgs s) →
  model req = "gpt-4" ∧ max_tokens req = 100
  ∧ head (messages req) = Some {| turn_role := system; turn_content := systemPrompt |}
  ∧ length (messages req) = 1 + length msgs `min` 20
  ∧ 2 ≤ length (messages req) ≤ 21
  ∧ Forall (λ turn, turn_role turn ≠ system) (tail (messages req)).
Proof.
  intros Hin. destruct (endpoint_call_inv _ _ _ _ _ _ _ Hin) as [G ->].
  apply gate_true in G as (_ & _ & Hm & _).
  simpl. rewrite length_fmap, length_slice_last_min.
  split_and!; try done.
  - destruct msgs; [done|]. simpl. lia.
  - lia.
  - apply Forall_fmap, Forall_true. intros m. simpl.
    by destruct (strict_eq_opt (username m) (currentUserId s)).
Qed.

Lemma request_shape_witness :
  length (messages (completionRequest
                      (formatted (Some "alice") <$> slice_last 20 (replicate 25 hello))))
  = 21.
Proof.
  assert (CompletionsCreate
            (completionRequest
               (formatted (Some "alice") <$> slice_last 20 (replicate 25 hello)))
          ∈ trace (predictMessage (says "ok") quiet aiOn "A" (replicate 25 hello) in_chat_A))
    as Hin by (vm_compute; repeat constructor).
  destruct (request_shape (says "ok") quiet aiOn "A" (replicate 25 hello) in_chat_A _ Hin)
    as (_ & _ & _ & H & _).
  rewrite H. reflexivity.
Defined.

(** ** What a prediction keeps of the messages it is given *)

(** X16: the history a prediction stores is the given list without its
    oldest entries beyond 20: the given list is the dropped entries followed
    by the stored ones, the stored ones number min(length, 20), and the
    newest message given is always the newest stored. *)
Theorem stored_history_is_recent_suffix create callbacks (global : Global) (chatId : string)
    (msgs : list Message) (s : OpenAIService) :
  gate global s chatId msgs = true →
  ∃ older recent,
    messageHistory (state_after (predictMessage create callbacks global chatId msgs s)) !! chatId
    = Some recent
    ∧ msgs = older ++ recent
    ∧ length older = length msgs - 20
    ∧ length recent = length msgs `min` 20
    ∧ last recent = last msgs
    ∧ is_Some (last recent).
Proof.
  intros G. rewrite (predictMessage_open create callbacks _ _ _ _ G).
  apply gate_true in G as (_ & _ & Hm & _).
  exists (take (length msgs - 20) msgs), (slice_last 20 msgs).
  assert (slice_last 20 msgs ≠ []) as Hne.
  { intros E. apply slice_last_nil_inv in E; [done|lia]. }
  assert (is_Some (last (slice_last 20 msgs))) as [x Hx].
  { destruct (last (slice_last 20 msgs)) eqn:E; [by eexists|].
    by apply last_None in E. }
  unfold state_after. simpl. split_and!.
  - apply lookup_insert_eq.
  - unfold slice_last. by rewrite take_drop.
  - rewrite length_take. lia.
  - rewrite length_slice_last_min. lia.
  - rewrite <- (take_drop (length msgs - 20) msgs) at 2.
    fold (slice_last 20 msgs). by rewrite last_app, Hx.
  - by exists x.
Qed.

Lemma stored_history_is_recent_suffix_witness :
  ∃ older recent,
    messageHistory
      (state_after (predictMessage (says "ok") quiet aiOn "A"
                      (replicate 24 hello ++ [bye]) in_chat_A)) !! "A" = Some recent
    ∧ replicate 24 hello ++ [bye] = older ++ recent
    ∧ length older = 5
    ∧ length recent = 20
    ∧ last recent = Some bye.
Proof.
  destruct (stored_history_is_recent_suffix (says "ok") quiet aiOn "A"
              (replicate 24 hello ++ [bye]) in_chat_A eq_refl)
    as (older & recent & H1 & H2 & H3 & H4 & H5 & _).
  exists older, recent. split_and!; [exact H1|exact H2|exact H3|exact H4|].
  rewrite H5. reflexivity.
Defined.

(** ** The singleton *)

Lemma host_run_created (hs : list HostCall) (i : Instance) (waiting : list string) :
  host_run hs {| instance := Some i; suspended := waiting |}
  = ({| instance :=
          Some {| openai := openai i;
                  fields := service (run (methods hs)
                                       {| service := fields i; pending := waiting |}).1 |};
        suspended := pending (run (methods hs)
                                {| service := fields i; pending := waiting |}).1 |},
     (run (methods hs) {| service := fields i; pending := waiting |}).2).
Proof.
  revert i waiting. induction hs as [|h hs IH]; intros i waiting.
  - simpl. by destruct i.
  - destruct h as [key|c]; simpl.
    + rewrite IH. done.
    + destruct (step c _) as [w1 t1] eqn:E. rewrite IH. simpl.
      destruct w1 as [s1 p1]. simpl.
      by destruct (run (methods hs) _) as [w2 t2].
Qed.

(** X17: the first [getInstance] builds the service from its key, with
    nothing stored, no current chat or user and no listener; every later
    [getInstance], whatever key it is given, returns that same object and
    changes nothing: the client keeps the first key, and the service is in
    the state the method calls alone lead to. *)
Theorem getInstance_singleton (key : string) (hs : list HostCall) :
  getInstance key None = (constructor key, Some (constructor key))
  ∧ (∀ i other, getInstance other (Some i) = (i, Some i))
  ∧ host_run (GetInstance key :: hs) process0
    = ({| instance :=
            Some {| openai := {| apiKey := key; dangerouslyAllowBrowser := true |};
                    fields := service (run (methods hs) world0).1 |};
          suspended := pending (run (methods hs) world0).1 |},
       (run (methods hs) world0).2).
Proof.
  split_and!; [done|done|].
  simpl. by rewrite host_run_created.
Qed.
